(** * rdfm management server: the group endpoints (server/src/api/v1/groups.py)

    The handlers of groups.py are embedded as functions in a state and
    exception monad over an abstract groups database.  The database layer
    ([server.instance._groups_db]), the policy compiler ([update.policy]) and
    the response helper ([api_error]) live outside this file of the
    repository; the handlers take the database and the compiler as
    parameters, and a concrete store written after the design document is
    supplied further down to run them against.

    The same holds for the response schema ([Group.Schema()]) and for the
    console the exception guards write to ([traceback.print_exc], [print],
    [repr]): both are parameters of the handlers.

    Authentication decorators and request deserialisation run before a
    handler is entered and are left out. *)

From Stdlib Require Import ZArith Ascii String List Floats.SpecFloat.
From stdpp Require Import base option list gmap strings fin_maps.

Open Scope Z_scope.
Open Scope string_scope.

(** ** Python values and control flow *)

Module Py.

(** The value of [request.json]. *)
#[warnings="-register-all"]
Inductive json : Type :=
| JNull
| JBool (b : bool)
| JInt (n : Z)
| JFloat (f : spec_float)
| JStr (s : string)
| JArr (items : list json)
| JObj (members : list (string * json)).

(** [datetime.datetime]: microseconds since the epoch. *)
Definition datetime := Z.

(** Where a raised object sits in the class hierarchy, as far as the two
    [except] clauses of groups.py can tell: an instance of [RuntimeError]
    (or of a subclass), another instance of [Exception], or an object that
    only derives from [BaseException] ([SystemExit], [KeyboardInterrupt]). *)
Inductive exn_base : Set :=
| InRuntimeError
| InException
| InBaseException.

Record exn : Type := Exn {
  exn_base_of : exn_base;
  exn_class : string;
  exn_str : string            (* what [str(e)] and [f"{e}"] give *)
}.

Definition isinstance_RuntimeError (e : exn) : bool :=
  match exn_base_of e with
  | InRuntimeError => true
  | _ => false
  end.

Definition isinstance_Exception (e : exn) : bool :=
  match exn_base_of e with
  | InBaseException => false
  | _ => true
  end.

Inductive outcome (A : Type) : Type :=
| Return (a : A)
| Raise (e : exn).
Arguments Return {A} a.
Arguments Raise {A} e.

(** A computation that reads and writes a store of type [S] and either
    returns or raises; the store survives a raise. *)
Definition M (S A : Type) : Type := S -> outcome A * S.

Definition ret {S A} (a : A) : M S A := fun s => (Return a, s).

Definition raise {S A} (e : exn) : M S A := fun s => (Raise e, s).

Definition bind {S A B} (m : M S A) (k : A -> M S B) : M S B :=
  fun s =>
    match m s with
    | (Return a, s') => k a s'
    | (Raise e, s') => (Raise e, s')
    end.

(** A query: it may raise, it does not write. *)
Definition query {S A} (q : S -> outcome A) : M S A := fun s => (q s, s).

(** A call that does not touch the store at all. *)
Definition pure {S A} (o : outcome A) : M S A := fun s => (o, s).

(** [try: body / except Exception as e: handler e] *)
Definition try_except_Exception {S A} (body : M S A) (handler : exn -> M S A)
  : M S A :=
  fun s =>
    match body s with
    | (Return a, s') => (Return a, s')
    | (Raise e, s') =>
        if isinstance_Exception e then handler e s' else (Raise e, s')
    end.

Fixpoint mapM {S A B} (f : A -> M S B) (l : list A) : M S (list B) :=
  match l with
  | [] => ret []
  | x :: l' => bind (f x) (fun y => bind (mapM f l') (fun ys => ret (y :: ys)))
  end.

End Py.

Import Py.

Declare Scope py_scope.
Delimit Scope py_scope with py.
Notation "x <- m ;; k" := (bind m (fun x => k))
  (at level 100, m at next level, k at level 200, right associativity) : py_scope.
Open Scope py_scope.

(** ** Database models and wire schemas *)

(** [models.group.Group], the attributes the handlers read and write.  A
    freshly constructed object has no identifier until the database inserts
    it; no handler reads [gm_id] of such an object before that, and [create]
    below builds it with 0 in that place. *)
Record GroupModel : Type := mkGroupModel {
  gm_id : Z;
  gm_created : datetime;
  gm_info : json;
  gm_policy : string;
  gm_priority : Z
}.

(** [models.device.Device], the two columns the group endpoints rely on. *)
Record DeviceModel : Type := mkDeviceModel {
  dm_id : Z;
  dm_group : option Z
}.

(** [rdfm.schema.v1.groups.Group] as built by [model_to_schema]. *)
Record Group : Type := mkGroup {
  g_id : Z;
  g_created : datetime;
  g_packages : list Z;
  g_devices : list Z;
  g_metadata : json;
  g_policy : string
}.

Record AssignDeviceRequest : Type := mkAssignDeviceRequest {
  add : list Z;
  remove : list Z
}.

Record AssignPackageRequest : Type := mkAssignPackageRequest {
  req_packages : list Z
}.

Record AssignPolicyRequest : Type := mkAssignPolicyRequest {
  req_policy : string
}.

(** The compiled form of a policy string. *)
Record Policy : Type := mkPolicy {
  kind : string;
  args : list string
}.

(** What a handler hands back to Flask: a body and a status code.  The body
    of a group answer is what [Group.Schema().dump] returned. *)
Inductive body : Type :=
| EmptyBody                         (* [{}] *)
| ErrorBody (msg : string)
| GroupBody (dumped : json)         (* [Group.Schema().dump(group)] *)
| GroupListBody (dumped : json).    (* [Group.Schema().dump(groups, many=True)] *)

Definition response : Type := body * Z.

Definition status (r : response) : Z := snd r.

(** Modelled from the spec: [api_error] of api.v1.common is not part of
    groups.py; an error outcome carries its message and maps to the given
    status code (section 6). *)
Definition api_error (msg : string) (code : Z) : response := (ErrorBody msg, code).

Definition GROUP_DEFAULT_PRIORITY : Z := 25.

(** ** The groups database, as the handlers use it *)

Module GroupsDb.

Record t (Store : Type) : Type := Build {
  fetch_all : Store -> outcome (list GroupModel);
  fetch_one : Z -> Store -> outcome (option GroupModel);
  fetch_assigned : Z -> Store -> outcome (list DeviceModel);
  fetch_assigned_packages : Z -> Store -> outcome (list Z);
  delete : Z -> M Store bool;
  modify_assignment : Z -> list Z -> list Z -> M Store (option string);
  create : GroupModel -> M Store GroupModel;
  modify_package : Z -> list Z -> M Store (option string);
  update_policy : Z -> string -> M Store unit
}.
Arguments Build {Store}.
Arguments fetch_all {Store}.
Arguments fetch_one {Store}.
Arguments fetch_assigned {Store}.
Arguments fetch_assigned_packages {Store}.
Arguments delete {Store}.
Arguments modify_assignment {Store}.
Arguments create {Store}.
Arguments modify_package {Store}.
Arguments update_policy {Store}.

End GroupsDb.

(** ** The response schema and the console *)

(** [Group.Schema()] of rdfm.schema.v1.groups.  The schema class is not part
    of groups.py; its two uses are taken as they are called, each of them
    may raise. *)
Module GroupSchema.

Record t : Type := Build {
  dump : Group -> outcome json;                 (* [dump(group)] *)
  dump_many : list Group -> outcome json        (* [dump(groups, many=True)] *)
}.

End GroupSchema.

(** What the [except] blocks call: [traceback.print_exc()] while [e] is being
    handled, [repr(e)], and [print(label, text)].  Each of them may raise:
    [repr] runs the [__repr__] of the exception, the other two write to the
    standard streams of the process. *)
Module Stdio.

Record t : Type := Build {
  print_exc : exn -> outcome unit;
  repr : exn -> outcome string;
  print : string -> string -> outcome unit
}.

End Stdio.

(** The body of every [except Exception as e] block of groups.py:
    [traceback.print_exc()], then [print(label, repr(e))], then
    [return answer].  What these calls raise leaves the handler. *)
Definition report {S : Type} (io : Stdio.t) (label : string) (answer : response)
    (e : exn) : M S response :=
  _ <- pure (Stdio.print_exc io e);;
  text <- pure (Stdio.repr io e);;
  _ <- pure (Stdio.print io label text);;
  ret answer.

(** ** The handlers of groups.py *)

Module groups.
Section Handlers.

Context {Store : Type}.
(** the standard streams and [repr] *)
Variable io : Stdio.t.
(** [Group.Schema()] *)
Variable schema : GroupSchema.t.
(** [server.instance._groups_db] *)
Variable db : GroupsDb.t Store.
(** [update.policy.create] *)
Variable policy_create : string -> outcome Policy.

Definition model_to_schema (group : GroupModel) : M Store Group :=
  packages <- query (GroupsDb.fetch_assigned_packages db (gm_id group));;
  assigned <- query (GroupsDb.fetch_assigned db (gm_id group));;
  ret {| g_id := gm_id group;
         g_created := gm_created group;
         g_packages := packages;
         g_devices := map dm_id assigned;
         g_metadata := gm_info group;
         g_policy := gm_policy group |}.

(** Returned without a status code: Flask answers 200. *)
Definition fetch_all : M Store response :=
  try_except_Exception
    (groups <- query (GroupsDb.fetch_all db);;
     schemas <- mapM model_to_schema groups;;
     dumped <- pure (GroupSchema.dump_many schema schemas);;
     ret (GroupListBody dumped, 200))
    (report io "Exception during group fetch:" (api_error "fetching failed" 500)).

Definition fetch_one (identifier : Z) : M Store response :=
  try_except_Exception
    (group <- query (GroupsDb.fetch_one db identifier);;
     match group with
     | None => ret (api_error "group does not exist" 404)
     | Some group =>
         schema_model <- model_to_schema group;;
         dumped <- pure (GroupSchema.dump schema schema_model);;
         ret (GroupBody dumped, 200)
     end)
    (report io "Exception during group fetch:" (api_error "fetching failed" 500)).

Definition delete_one (identifier : Z) : M Store response :=
  try_except_Exception
    (group <- query (GroupsDb.fetch_one db identifier);;
     match group with
     | None => ret (api_error "group does not exist" 404)
     | Some _ =>
         success <- GroupsDb.delete db identifier;;
         if negb success
         then ret (api_error "group is still assigned to some devices" 409)
         else ret (EmptyBody, 200)
     end)
    (report io "Exception during group delete:" (api_error "deleting failed" 500)).

Definition change_assigned (identifier : Z) (instructions : AssignDeviceRequest)
  : M Store response :=
  try_except_Exception
    (group <- query (GroupsDb.fetch_one db identifier);;
     match group with
     | None => ret (api_error "group does not exist" 404)
     | Some _ =>
         err <- GroupsDb.modify_assignment db identifier
                  (add instructions) (remove instructions);;
         match err with
         | Some err => ret (api_error err 409)
         | None => ret (EmptyBody, 200)
         end
     end)
    (report io "Exception during group assignment modification:"
       (api_error "group assignment modification failed" 500)).

(** [utcnow] is the reading of the clock, [metadata] is [request.json]. *)
Definition create (utcnow : datetime) (metadata : json) : M Store response :=
  try_except_Exception
    (let group := {| gm_id := 0;
                     gm_created := utcnow;
                     gm_info := metadata;
                     gm_policy := "no_update,";
                     gm_priority := GROUP_DEFAULT_PRIORITY |} in
     group <- GroupsDb.create db group;;
     schema_model <- model_to_schema group;;
     dumped <- pure (GroupSchema.dump schema schema_model);;
     ret (GroupBody dumped, 200))
    (report io "Exception during group creation:" (api_error "group creation failed" 500)).

Definition assign_package (identifier : Z) (assignment : AssignPackageRequest)
  : M Store response :=
  try_except_Exception
    (group <- query (GroupsDb.fetch_one db identifier);;
     match group with
     | None => ret (api_error "group does not exist" 404)
     | Some _ =>
         err <- GroupsDb.modify_package db identifier (req_packages assignment);;
         match err with
         | Some err => ret (api_error err 409)
         | None => ret (EmptyBody, 200)
         end
     end)
    (report io "Exception during group package assignment:"
       (api_error "group package assignment failed" 500)).

Definition update_policy (identifier : Z) (policy_request : AssignPolicyRequest)
  : M Store response :=
  try_except_Exception
    (group <- query (GroupsDb.fetch_one db identifier);;
     match group with
     | None => ret (api_error "group does not exist" 404)
     | Some _ =>
         let policy := req_policy policy_request in
         match policy_create policy with
         | Raise e =>
             if isinstance_RuntimeError e
             then ret (api_error ("invalid policy: " ++ exn_str e) 400)
             else raise e
         | Return _ =>
             _ <- GroupsDb.update_policy db identifier policy;;
             ret (EmptyBody, 200)
         end
     end)
    (report io "Exception during group policy assignment:"
       (api_error "group policy assignment failed" 500)).

End Handlers.
End groups.


(** ** The store, after the design document

    The database layer is not part of groups.py.  The definitions of this
    module follow sections 3 and 4 of the design document: groups keyed by
    identifier, devices with an optional group reference, the identifiers of
    the registered packages, and the operations the handlers call. *)

Module SpecStore.

(** Modelled from the spec: the stored attributes of a Group (section 3);
    the identifier is the key of the row. *)
Record GroupRow : Type := mkGroupRow {
  row_created : datetime;
  row_info : json;
  row_policy : string;
  row_priority : Z;
  row_packages : list Z
}.

(** Modelled from the spec: the Device, Group and Package store of section 5.
    [st_devices] maps a registered device to its [group_id]; [st_packages]
    holds the identifiers the package registry knows; [st_next_id] is the
    identifier the next created group receives. *)
Record Store : Type := mkStore {
  st_groups : gmap Z GroupRow;
  st_devices : gmap Z (option Z);
  st_packages : gset Z;
  st_next_id : Z
}.

(** Modelled from the spec: a write to the group records only. *)
Definition with_groups (f : gmap Z GroupRow -> gmap Z GroupRow) (s : Store) : Store :=
  {| st_groups := f (st_groups s);
     st_devices := st_devices s;
     st_packages := st_packages s;
     st_next_id := st_next_id s |}.

(** Modelled from the spec: a write to the device records only. *)
Definition with_devices (f : gmap Z (option Z) -> gmap Z (option Z)) (s : Store) : Store :=
  {| st_groups := st_groups s;
     st_devices := f (st_devices s);
     st_packages := st_packages s;
     st_next_id := st_next_id s |}.

(** Modelled from the spec: the group object the database hands out for a
    stored record. *)
Definition to_model (identifier : Z) (row : GroupRow) : GroupModel :=
  {| gm_id := identifier;
     gm_created := row_created row;
     gm_info := row_info row;
     gm_policy := row_policy row;
     gm_priority := row_priority row |}.

(** Modelled from the spec: the record stored for a new group object; its
    package set is empty (section 4.5). *)
Definition to_row (group : GroupModel) : GroupRow :=
  {| row_created := gm_created group;
     row_info := gm_info group;
     row_policy := gm_policy group;
     row_priority := gm_priority group;
     row_packages := [] |}.

(** Modelled from the spec: [fetch_all] of the groups database, every group
    record of the registry. *)
Definition fetch_all (s : Store) : outcome (list GroupModel) :=
  Return ((fun kv => to_model kv.1 kv.2) <$> map_to_list (st_groups s)).

(** Modelled from the spec: [fetch_one] of the groups database, the group
    record with this identifier, if there is one. *)
Definition fetch_one (identifier : Z) (s : Store) : outcome (option GroupModel) :=
  Return (to_model identifier <$> st_groups s !! identifier).

(** Modelled from the spec: the derived view [devices] of section 3, the
    devices whose [group_id] equals the identifier of the group. *)
Definition assigned (identifier : Z) (s : Store) : gmap Z (option Z) :=
  filter (fun kv => kv.2 = Some identifier) (st_devices s).

(** Modelled from the spec: [fetch_assigned] of the groups database, the
    derived view as device records. *)
Definition fetch_assigned (identifier : Z) (s : Store) : outcome (list DeviceModel) :=
  Return ((fun kv => mkDeviceModel kv.1 kv.2) <$> map_to_list (assigned identifier s)).

(** Modelled from the spec: [fetch_assigned_packages] of the groups database,
    the package identifiers stored with the group. *)
Definition fetch_assigned_packages (identifier : Z) (s : Store) : outcome (list Z) :=
  Return (match st_groups s !! identifier with
          | Some row => row_packages row
          | None => []
          end).

(** Modelled from the spec: [delete] of the groups database (section 4.5): it
    refuses while the derived device set is non-empty and removes the group
    record otherwise. *)
Definition delete (identifier : Z) : M Store bool :=
  fun s =>
    if decide (assigned identifier s = ∅)
    then (Return true, with_groups (base.delete identifier) s)
    else (Return false, s).

(** Modelled from the spec: the checks of section 4.1 on one identifier of
    [additions]: the device exists and has no group assigned. *)
Definition check_addition (s : Store) (device : Z) : option string :=
  match st_devices s !! device with
  | None => Some "device does not exist"
  | Some (Some _) => Some "device already assigned to a group"
  | Some None => None
  end.

(** Modelled from the spec: the check of section 4.1 on one identifier of
    [removals]: the device exists and is assigned to exactly this group. *)
Definition check_removal (s : Store) (identifier device : Z) : option string :=
  match st_devices s !! device with
  | None => Some "device does not exist"
  | Some g =>
      if decide (g = Some identifier) then None
      else Some "device not currently assigned to this group"
  end.

(** Modelled from the spec: the first check that fails, if any does. *)
Fixpoint first_error {A} (check : A -> option string) (l : list A) : option string :=
  match l with
  | [] => None
  | x :: l' =>
      match check x with
      | Some err => Some err
      | None => first_error check l'
      end
  end.

(** Modelled from the spec: the side effect of section 4.1,
    [Device.group_id := target] for each identifier in turn. *)
Definition assign_all (target : option Z) (ids : list Z)
    (devs : gmap Z (option Z)) : gmap Z (option Z) :=
  foldl (fun m d => <[d := target]> m) devs ids.

(** Modelled from the spec: [modify_assignment] of the groups database, the
    Membership Engine of section 4.1.  Every check is evaluated on the store
    as it is before any mutation; one failure aborts with its reason and no
    change; otherwise the additions are applied, then the removals. *)
Definition modify_assignment (identifier : Z) (additions removals : list Z)
  : M Store (option string) :=
  fun s =>
    match first_error (check_addition s) additions with
    | Some err => (Return (Some err), s)
    | None =>
        match first_error (check_removal s identifier) removals with
        | Some err => (Return (Some err), s)
        | None =>
            (Return None,
             with_devices
               (fun devs => assign_all None removals
                              (assign_all (Some identifier) additions devs)) s)
        end
    end.

(** Modelled from the spec: [create] of the groups database (section 4.5): it
    allocates an identifier and stores the record with an empty package set. *)
Definition create (group : GroupModel) : M Store GroupModel :=
  fun s =>
    let identifier := st_next_id s in
    (Return (to_model identifier (to_row group)),
     {| st_groups := <[identifier := to_row group]> (st_groups s);
        st_devices := st_devices s;
        st_packages := st_packages s;
        st_next_id := identifier + 1 |}).

(** Modelled from the spec: the record with its package set replaced. *)
Definition set_packages (pkgs : list Z) (row : GroupRow) : GroupRow :=
  {| row_created := row_created row;
     row_info := row_info row;
     row_policy := row_policy row;
     row_priority := row_priority row;
     row_packages := pkgs |}.

(** Modelled from the spec: the record with its policy replaced. *)
Definition set_policy (text : string) (row : GroupRow) : GroupRow :=
  {| row_created := row_created row;
     row_info := row_info row;
     row_policy := text;
     row_priority := row_priority row;
     row_packages := row_packages row |}.

(** Modelled from the spec: [modify_package] of the groups database, the
    Package Assignment Engine of section 4.2.  A group that is no longer
    there and a package identifier the registry does not know are both
    reported as a conflict; otherwise the package set is replaced. *)
Definition modify_package (identifier : Z) (pkgs : list Z) : M Store (option string) :=
  fun s =>
    match st_groups s !! identifier with
    | None => (Return (Some "group was modified or deleted during the operation"), s)
    | Some _ =>
        if forallb (fun p => bool_decide (p ∈ st_packages s)) pkgs
        then (Return None, with_groups (alter (set_packages pkgs) identifier) s)
        else (Return (Some "package does not exist"), s)
    end.

(** Modelled from the spec: [update_policy] of the groups database (section
    4.4): the text is persisted as the policy of the group. *)
Definition update_policy (identifier : Z) (text : string) : M Store unit :=
  fun s => (Return tt, with_groups (alter (set_policy text) identifier) s).

(** Modelled from the spec: the groups database behind
    [server.instance._groups_db], assembled from the operations above. *)
Definition db : GroupsDb.t Store :=
  GroupsDb.Build fetch_all fetch_one fetch_assigned fetch_assigned_packages
    delete modify_assignment create modify_package update_policy.

(** Modelled from the spec: a store with no group yet; devices and packages
    are registered elsewhere (section 3). *)
Definition empty (devs : gmap Z (option Z)) (pkgs : gset Z) : Store :=
  {| st_groups := ∅; st_devices := devs; st_packages := pkgs; st_next_id := 1 |}.

End SpecStore.


(** ** A policy compiler, after the design document *)

Module policy.

(** Modelled from the spec: the tokens of a comma-separated policy string. *)
Fixpoint split_commas (s : string) : list string :=
  match s with
  | EmptyString => [EmptyString]
  | String c s' =>
      if Ascii.eqb c ","%char then EmptyString :: split_commas s'
      else match split_commas s' with
           | tok :: toks => String c tok :: toks
           | [] => [String c EmptyString]
           end
  end.

(** Modelled from the spec: an argument token is a non-empty one, so that
    "no_update," carries no argument (section 8). *)
Definition nonempty (s : string) : bool :=
  match s with
  | EmptyString => false
  | String _ _ => true
  end.

(** Modelled from the spec: the ParseError of section 4.3 with its reason. *)
Definition parse_error (reason : string) : exn :=
  {| exn_base_of := InRuntimeError; exn_class := "RuntimeError"; exn_str := reason |}.

(** Modelled from the spec: [update.policy.create], the Policy Compiler of
    section 4.3, for the two kinds the document names.  The first token is
    the kind, the non-empty tokens after it are its arguments; an unknown
    kind or a wrong number of arguments is rejected with a reason.  The
    handler receives a rejection as a [RuntimeError]. *)
Definition create (text : string) : outcome Policy :=
  match split_commas text with
  | [] => Raise (parse_error "empty policy")
  | k :: rest =>
      let arguments := List.filter nonempty rest in
      if String.eqb k "no_update" then
        match arguments with
        | [] => Return {| kind := k; args := [] |}
        | _ => Raise (parse_error "no_update takes no argument")
        end
      else if String.eqb k "exact_match" then
        match arguments with
        | [version] => Return {| kind := k; args := [version] |}
        | _ => Raise (parse_error "exact_match takes one version")
        end
      else Raise (parse_error ("unknown policy kind: " ++ k))
  end.

End policy.

(** ** A response schema, after the docstrings *)

Module schema_v1.

Definition not_a_mapping : exn :=
  {| exn_base_of := InException;
     exn_class := "AttributeError";
     exn_str := "metadata is not a mapping" |}.

(** Modelled from the spec: the written form of a group, with the fields of
    the response payload of section 6 (the [:>json] fields of the docstrings
    of [fetch_all] and [fetch_one]).  The text form of [created] is not
    modelled, the timestamp is written as a number. *)
Definition render (g : Group) : json :=
  JObj [("id", JInt (g_id g));
        ("created", JInt (g_created g));
        ("packages", JArr (JInt <$> g_packages g));
        ("devices", JArr (JInt <$> g_devices g));
        ("metadata", g_metadata g);
        ("policy", JStr (g_policy g))].

(** Modelled from the spec: [Group.Schema().dump] of rdfm.schema.v1.groups,
    which is not part of groups.py.  [metadata] is a mapping (section 3;
    [dict] in the docstrings): an object is written out as it is, an absent
    value as [null], and any other value cannot be written as a mapping and
    makes the call raise. *)
Definition dump (g : Group) : outcome json :=
  match g_metadata g with
  | JObj _ | JNull => Return (render g)
  | _ => Raise not_a_mapping
  end.

(** Modelled from the spec: every group of the list is written in turn, the
    first one that cannot be written ends the call. *)
Fixpoint dump_each (gs : list Group) : outcome (list json) :=
  match gs with
  | [] => Return []
  | g :: gs' =>
      match dump g with
      | Raise e => Raise e
      | Return j =>
          match dump_each gs' with
          | Raise e => Raise e
          | Return js => Return (j :: js)
          end
      end
  end.

(** Modelled from the spec: [Group.Schema().dump(groups, many=True)]. *)
Definition dump_many (gs : list Group) : outcome json :=
  match dump_each gs with
  | Raise e => Raise e
  | Return js => Return (JArr js)
  end.

(** Modelled from the spec: the schema object with its two uses. *)
Definition schema : GroupSchema.t := GroupSchema.Build dump dump_many.

End schema_v1.

(** ** Consoles *)

(** A process whose standard streams accept what is written and whose
    exceptions have the usual [repr]. *)
Definition console : Stdio.t :=
  Stdio.Build
    (fun _ => Return tt)
    (fun e => Return (exn_class e ++ "('" ++ exn_str e ++ "')"))
    (fun _ _ => Return tt).

Definition closed_file : exn :=
  {| exn_base_of := InException;
     exn_class := "ValueError";
     exn_str := "I/O operation on closed file." |}.

(** A process whose standard output has been closed. *)
Definition closed_console : Stdio.t :=
  Stdio.Build
    (fun _ => Return tt)
    (fun e => Return (exn_class e ++ "('" ++ exn_str e ++ "')"))
    (fun _ _ => Raise closed_file).

(** The three calls of an [except] block return for [e]. *)
Definition logs (io : Stdio.t) (e : exn) : Prop :=
  Stdio.print_exc io e = Return tt /\
  exists text,
    Stdio.repr io e = Return text /\
    forall label, Stdio.print io label text = Return tt.

(** One of the three calls of an [except] block raises [e'] while [e] is
    being reported. *)
Definition raised_while_logging (io : Stdio.t) (e e' : exn) : Prop :=
  Stdio.print_exc io e = Raise e' \/
  (Stdio.print_exc io e = Return tt /\ Stdio.repr io e = Raise e') \/
  (Stdio.print_exc io e = Return tt /\
   exists label text, Stdio.repr io e = Return text /\
                      Stdio.print io label text = Raise e').

(** ** Requests against the group endpoints *)

Inductive request : Type :=
| GetGroups
| GetGroup (identifier : Z)
| DeleteGroup (identifier : Z)
| PatchDevices (identifier : Z) (instructions : AssignDeviceRequest)
| PostGroup (utcnow : datetime) (metadata : json)
| PostPackage (identifier : Z) (assignment : AssignPackageRequest)
| PostPolicy (identifier : Z) (policy_request : AssignPolicyRequest).

(** The route table of [groups_blueprint]. *)
Definition dispatch {Store : Type} (io : Stdio.t) (schema : GroupSchema.t)
    (db : GroupsDb.t Store) (policy_create : string -> outcome Policy)
    (r : request) : M Store response :=
  match r with
  | GetGroups => groups.fetch_all io schema db
  | GetGroup identifier => groups.fetch_one io schema db identifier
  | DeleteGroup identifier => groups.delete_one io db identifier
  | PatchDevices identifier instructions =>
      groups.change_assigned io db identifier instructions
  | PostGroup utcnow metadata => groups.create io schema db utcnow metadata
  | PostPackage identifier assignment =>
      groups.assign_package io db identifier assignment
  | PostPolicy identifier policy_request =>
      groups.update_policy io db policy_create identifier policy_request
  end.

(** The store after a sequence of requests, served one after the other. *)
Definition serve {Store : Type} (io : Stdio.t) (schema : GroupSchema.t)
    (db : GroupsDb.t Store) (policy_create : string -> outcome Policy)
    (rs : list request) (s : Store) : Store :=
  foldl (fun s r => (dispatch io schema db policy_create r s).2) s rs.

(** ** Properties stated on the store *)

Import SpecStore.

Definition group_exists (s : Store) (identifier : Z) : Prop :=
  is_Some (st_groups s !! identifier).

(** The device is registered and has no group. *)
Definition addition_valid (s : Store) (device : Z) : Prop :=
  st_devices s !! device = Some None.

(** The device is registered and its [group_id] is exactly this group. *)
Definition assigned_to (s : Store) (identifier device : Z) : Prop :=
  st_devices s !! device = Some (Some identifier).

Definition checks_pass (s : Store) (identifier : Z) (instructions : AssignDeviceRequest) : Prop :=
  Forall (addition_valid s) (add instructions) /\
  Forall (assigned_to s identifier) (remove instructions).

(** The text went through the compiler without a complaint. *)
Definition compiles (policy_create : string -> outcome Policy) (text : string) : Prop :=
  exists p, policy_create text = Return p.

Definition policy_valid (policy_create : string -> outcome Policy) (s : Store) : Prop :=
  forall identifier row,
    st_groups s !! identifier = Some row ->
    row_policy row = "no_update," \/ compiles policy_create (row_policy row).

(** No device refers to a group that is not there, and every group carries an
    identifier that has been handed out. *)
Definition well_formed (s : Store) : Prop :=
  (forall device g, st_devices s !! device = Some (Some g) -> group_exists s g) /\
  (forall g, group_exists s g -> g < st_next_id s).

(** A small fleet for the worked examples: devices 1, 2, 3 and 5 without a
    group, packages 1, 2 and 3. *)
Definition fleet : Store :=
  SpecStore.empty (list_to_map [(1, None); (2, None); (3, None); (5, None)])
                  (list_to_set [1; 2; 3]).

Definition description : json := JObj [("description", JStr "A test group")].

(** What [model_to_schema] builds from a group record on a given store. *)
Definition schema_of (s : Store) (group : GroupModel) : Group :=
  {| g_id := gm_id group;
     g_created := gm_created group;
     g_packages := match st_groups s !! gm_id group with
                   | Some row => row_packages row
                   | None => []
                   end;
     g_devices := map dm_id ((fun kv => mkDeviceModel kv.1 kv.2) <$>
                               map_to_list (assigned (gm_id group) s));
     g_metadata := gm_info group;
     g_policy := gm_policy group |}.

(** The [devices] and [packages] of a representation are those of the store
    it is read against. *)
Definition current_view (s : Store) (g : Group) : Prop :=
  (forall device, device ∈ g_devices g <-> assigned_to s (g_id g) device) /\
  (exists row, st_groups s !! g_id g = Some row /\ g_packages g = row_packages row).

(** A request that leaves a group in the store either kept its policy, or
    wrote one that compiled, or created it with the default. *)
Definition policy_step (policy_create : string -> outcome Policy) (s s' : Store) : Prop :=
  forall identifier row',
    st_groups s' !! identifier = Some row' ->
    row_policy row' = "no_update," \/
    compiles policy_create (row_policy row') \/
    exists row, st_groups s !! identifier = Some row /\ row_policy row' = row_policy row.

(** [fleet] after a first group has been created. *)
Definition one_group : Store :=
  serve console schema_v1.schema db policy.create [PostGroup 7 description] fleet.

(** Group 1 with device 5 in it. *)
Definition one_member : Store :=
  serve console schema_v1.schema db policy.create
    [PatchDevices 1 (mkAssignDeviceRequest [5] [])] one_group.

(** A compiler that trips over its input instead of rejecting it. *)
Definition crashing_compiler (text : string) : outcome Policy :=
  Raise {| exn_base_of := InException;
           exn_class := "IndexError";
           exn_str := "list index out of range" |}.

(** The end of a handler that answers with a group: the answer of the route
    when the schema returned, the [except] block of the route when it raised
    below [Exception]. *)
Definition dumped_answer {S : Type} (io : Stdio.t) (label : string)
    (failure : response) (wrap : json -> body) (dumped : outcome json) : M S response :=
  match dumped with
  | Return j => ret (wrap j, 200)
  | Raise e => if isinstance_Exception e then report io label failure e else raise e
  end.

(** ** Answers, route by route *)

(** The status codes that occur in the [return] statements of each handler. *)
Definition allowed_status (r : request) : list Z :=
  match r with
  | GetGroups => [200; 500]
  | GetGroup _ => [200; 404; 500]
  | DeleteGroup _ => [200; 404; 409; 500]
  | PatchDevices _ _ => [200; 404; 409; 500]
  | PostGroup _ _ => [200; 500]
  | PostPackage _ _ => [200; 404; 409; 500]
  | PostPolicy _ _ => [200; 400; 404; 500]
  end.

(** The kind of body a route sends with status 200. *)
Definition success_body (r : request) (b : body) : Prop :=
  match r, b with
  | GetGroups, GroupListBody _ => True
  | GetGroup _, GroupBody _ => True
  | PostGroup _ _, GroupBody _ => True
  | DeleteGroup _, EmptyBody => True
  | PatchDevices _ _, EmptyBody => True
  | PostPackage _ _, EmptyBody => True
  | PostPolicy _ _, EmptyBody => True
  | _, _ => False
  end.

Definition is_error_body (b : body) : Prop :=
  match b with
  | ErrorBody _ => True
  | _ => False
  end.

(** The object [create] builds before it hands it to the database. *)
Definition new_group_object (utcnow : datetime) (metadata : json) : GroupModel :=
  {| gm_id := 0;
     gm_created := utcnow;
     gm_info := metadata;
     gm_policy := "no_update,";
     gm_priority := GROUP_DEFAULT_PRIORITY |}.

(** [g] is what [model_to_schema] makes of [group] when the database is in
    state [s]: the four copied attributes, and the two lists as the database
    answers for the identifier of the object. *)
Definition represents {S : Type} (gdb : GroupsDb.t S) (s : S)
    (group : GroupModel) (g : Group) : Prop :=
  g_id g = gm_id group /\
  g_created g = gm_created group /\
  g_metadata g = gm_info group /\
  g_policy g = gm_policy group /\
  GroupsDb.fetch_assigned_packages gdb (gm_id group) s = Return (g_packages g) /\
  exists assigned,
    GroupsDb.fetch_assigned gdb (gm_id group) s = Return assigned /\
    g_devices g = map dm_id assigned.

(** ** Databases that fail, to run the failure paths *)

Definition operational_error : exn :=
  {| exn_base_of := InException;
     exn_class := "OperationalError";
     exn_str := "database is locked" |}.

Definition keyboard_interrupt : exn :=
  {| exn_base_of := InBaseException;
     exn_class := "KeyboardInterrupt";
     exn_str := "" |}.

(** A database every call of which raises [e]. *)
Definition unreachable_db (e : exn) : GroupsDb.t unit :=
  GroupsDb.Build
    (fun _ => Raise e) (fun _ _ => Raise e) (fun _ _ => Raise e) (fun _ _ => Raise e)
    (fun _ => raise e) (fun _ _ _ => raise e) (fun _ => raise e)
    (fun _ _ => raise e) (fun _ _ => raise e).

(** The store above with every write raising [e]. *)
Definition write_failing_db (e : exn) : GroupsDb.t Store :=
  GroupsDb.Build
    SpecStore.fetch_all SpecStore.fetch_one
    SpecStore.fetch_assigned SpecStore.fetch_assigned_packages
    (fun _ => raise e) (fun _ _ _ => raise e) (fun _ => raise e)
    (fun _ _ => raise e) (fun _ _ => raise e).

(** The store above with the device lookup raising [e]. *)
Definition lookup_failing_db (e : exn) : GroupsDb.t Store :=
  GroupsDb.Build
    SpecStore.fetch_all SpecStore.fetch_one
    (fun _ _ => Raise e) SpecStore.fetch_assigned_packages
    SpecStore.delete SpecStore.modify_assignment SpecStore.create
    SpecStore.modify_package SpecStore.update_policy.

(** ** The except block *)

Section ExceptBlock.

Context {S : Type}.
Variable io : Stdio.t.

(** When its three calls return, the block returns its answer. *)
Lemma report_logs (label : string) (answer : response) (e : exn) (s : S) :
  logs io e -> report io label answer e s = (Return answer, s).
Proof.
  intros (Hexc & text & Hrepr & Hprint).
  unfold report, bind, pure, ret. by rewrite Hexc, Hrepr, Hprint.
Qed.

(** The block never writes to the store. *)
Lemma report_store (label : string) (answer : response) (e : exn) (s : S) :
  (report io label answer e s).2 = s.
Proof. unfold report, bind, pure, ret. by repeat case_match. Qed.

(** Whatever leaves the block was raised by one of its three calls. *)
Lemma report_raises (label : string) (answer : response) (e e' : exn) (s s' : S) :
  report io label answer e s = (Raise e', s') -> raised_while_logging io e e'.
Proof.
  unfold report, raised_while_logging, bind, pure, ret.
  destruct (Stdio.print_exc io e) as [[]|e1]; [|intros [= <- _]; by left].
  destruct (Stdio.repr io e) as [text|e2]; [|intros [= <- _]; right; by left].
  destruct (Stdio.print io label text) as [[]|e3] eqn:Hprint; [discriminate|].
  intros [= <- _]. right. right. eauto.
Qed.

(** The block returns nothing but its answer. *)
Lemma report_returns (label : string) (answer r : response) (e : exn) (s s' : S) :
  report io label answer e s = (Return r, s') -> r = answer /\ s' = s.
Proof.
  unfold report, bind, pure, ret. repeat case_match; try discriminate.
  by intros [= <- <-].
Qed.

(** A guarded body writes what the body writes. *)
Lemma guard_store (work : M S response) (label : string) (answer : response) (s : S) :
  (try_except_Exception work (report io label answer) s).2 = (work s).2.
Proof.
  unfold try_except_Exception.
  destruct (work s) as [[a|e] s1]; [done|].
  destruct (isinstance_Exception e); [apply report_store | done].
Qed.

End ExceptBlock.

(** ** How the handlers step on the store *)

Section Stepping.

Lemma fetch_one_found (s : Store) (identifier : Z) (row : GroupRow) :
  st_groups s !! identifier = Some row ->
  GroupsDb.fetch_one db identifier s = Return (Some (to_model identifier row)).
Proof. intros H. cbn. unfold fetch_one. by rewrite H. Qed.

Lemma fetch_one_missing (s : Store) (identifier : Z) :
  st_groups s !! identifier = None ->
  GroupsDb.fetch_one db identifier s = Return None.
Proof. intros H. cbn. unfold fetch_one. by rewrite H. Qed.

Lemma first_error_None {A} (check : A -> option string) (l : list A) :
  first_error check l = None <-> Forall (fun x => check x = None) l.
Proof.
  induction l as [|x l IH]; cbn.
  - split; [constructor | done].
  - destruct (check x) as [err|] eqn:Hx.
    + split; [done | intros H; inversion H; congruence].
    + rewrite IH. split; [by constructor | intros H; by inversion H].
Qed.

Lemma check_addition_None (s : Store) (device : Z) :
  check_addition s device = None <-> addition_valid s device.
Proof.
  unfold check_addition, addition_valid.
  destruct (st_devices s !! device) as [[g|]|]; split; congruence.
Qed.

Lemma check_removal_None (s : Store) (identifier device : Z) :
  check_removal s identifier device = None <-> assigned_to s identifier device.
Proof.
  unfold check_removal, assigned_to.
  destruct (st_devices s !! device) as [g|]; [|split; congruence].
  destruct (decide (g = Some identifier)) as [->|Hne]; split; congruence.
Qed.

Lemma checks_pass_first_error (s : Store) (identifier : Z) (instructions : AssignDeviceRequest) :
  checks_pass s identifier instructions <->
  first_error (check_addition s) (add instructions) = None /\
  first_error (check_removal s identifier) (remove instructions) = None.
Proof.
  unfold checks_pass. rewrite !first_error_None, !Forall_forall.
  split; intros [Ha Hr]; split; intros x Hx.
  - apply check_addition_None; auto.
  - apply check_removal_None; auto.
  - apply check_addition_None; auto.
  - apply check_removal_None; auto.
Qed.

(** [modify_assignment] answers [None] exactly when every check passes, and
    it only writes in that case. *)
Lemma modify_assignment_cases (s : Store) (identifier : Z) (instructions : AssignDeviceRequest) :
  (checks_pass s identifier instructions /\
   modify_assignment identifier (add instructions) (remove instructions) s =
     (Return None,
      with_devices (fun devs => assign_all None (remove instructions)
                                  (assign_all (Some identifier) (add instructions) devs)) s)) \/
  (~ checks_pass s identifier instructions /\
   exists err,
     modify_assignment identifier (add instructions) (remove instructions) s =
       (Return (Some err), s)).
Proof.
  unfold modify_assignment. rewrite checks_pass_first_error.
  destruct (first_error (check_addition s) (add instructions)) as [err|] eqn:Ha.
  - right. split; [intros [? _]; congruence | eauto].
  - destruct (first_error (check_removal s identifier) (remove instructions))
      as [err|] eqn:Hr.
    + right. split; [intros [_ ?]; congruence | eauto].
    + left. auto.
Qed.

End Stepping.

(** ** Membership changes *)

(** C1.  [change_assigned] answers 404 when the group is not there; when it
    is there and some check fails for some identifier of [add] or [remove]
    (unknown device, added device that already has a group, removed device
    that is not in this group) it answers 409 and leaves the store, hence
    every device's group, as it was; it answers 200 only when every check
    passes, and it does so whenever they all pass. *)
Theorem change_assigned_outcomes
    (io : Stdio.t) (s : Store) (identifier : Z) (instructions : AssignDeviceRequest) :
  (~ group_exists s identifier ->
     groups.change_assigned io db identifier instructions s =
       (Return (api_error "group does not exist" 404), s)) /\
  (group_exists s identifier -> ~ checks_pass s identifier instructions ->
     exists err,
       groups.change_assigned io db identifier instructions s =
         (Return (api_error err 409), s)) /\
  (forall r s',
     groups.change_assigned io db identifier instructions s = (Return r, s') ->
     status r = 200 ->
     group_exists s identifier /\ checks_pass s identifier instructions) /\
  (group_exists s identifier -> checks_pass s identifier instructions ->
     exists s',
       groups.change_assigned io db identifier instructions s =
         (Return (EmptyBody, 200), s') /\
       st_groups s' = st_groups s).
Proof.
  unfold groups.change_assigned, try_except_Exception, bind, query, ret, group_exists.
  destruct (st_groups s !! identifier) as [row|] eqn:Hg.
  - rewrite (fetch_one_found _ _ _ Hg). cbn [GroupsDb.modify_assignment db].
    destruct (modify_assignment_cases s identifier instructions)
      as [[Hok ->]|[Hbad [err ->]]].
    + split; [|split; [|split]].
      * intros []; eauto.
      * intros _ Hno. contradiction.
      * intros r s' _ _. eauto.
      * intros _ _. eauto.
    + split; [|split; [|split]].
      * intros []; eauto.
      * intros _ _. eauto.
      * intros r s' [= <- <-]. cbn. discriminate.
      * intros _ Hyes. contradiction.
  - rewrite (fetch_one_missing _ _ Hg).
    split; [|split; [|split]].
    + done.
    + intros [? [=]].
    + intros r s' [= <- <-]. cbn. discriminate.
    + intros [? [=]].
Qed.

Lemma change_assigned_outcomes_witness :
  (exists err,
     groups.change_assigned console db 1 (mkAssignDeviceRequest [1; 2] [3]) one_group =
       (Return (api_error err 409), one_group)) /\
  (exists err,
     groups.change_assigned console db 1 (mkAssignDeviceRequest [5] []) one_member =
       (Return (api_error err 409), one_member)) /\
  groups.change_assigned console db 4 (mkAssignDeviceRequest [1] []) one_group =
    (Return (api_error "group does not exist" 404), one_group) /\
  (exists s',
     groups.change_assigned console db 1 (mkAssignDeviceRequest [1; 2] []) one_member =
       (Return (EmptyBody, 200), s') /\
     st_groups s' = st_groups one_member).
Proof.
  split; [|split; [|split]].
  - apply (change_assigned_outcomes console one_group 1 (mkAssignDeviceRequest [1; 2] [3])).
    + vm_compute. eauto.
    + intros [_ H]. inversion H as [|? ? Hx]. vm_compute in Hx. discriminate.
  - apply (change_assigned_outcomes console one_member 1 (mkAssignDeviceRequest [5] [])).
    + vm_compute. eauto.
    + intros [H _]. inversion H as [|? ? Hx]. vm_compute in Hx. discriminate.
  - apply (change_assigned_outcomes console one_group 4 (mkAssignDeviceRequest [1] [])).
    intros [? H]. vm_compute in H. discriminate.
  - apply (change_assigned_outcomes console one_member 1 (mkAssignDeviceRequest [1; 2] [])).
    + vm_compute. eauto.
    + split; cbn; repeat constructor.
Defined.

(** ** Deletion *)

Section DerivedDevices.

Lemma assigned_lookup (s : Store) (identifier device : Z) (g : option Z) :
  assigned identifier s !! device = Some g <->
  st_devices s !! device = Some g /\ g = Some identifier.
Proof. unfold assigned. by rewrite map_lookup_filter_Some. Qed.

Lemma assigned_empty (s : Store) (identifier : Z) :
  assigned identifier s = ∅ <-> forall device, ~ assigned_to s identifier device.
Proof.
  unfold assigned_to. rewrite map_empty. split.
  - intros H device Hd. specialize (H device).
    assert (assigned identifier s !! device = Some (Some identifier)) as Hin
      by (apply assigned_lookup; auto).
    congruence.
  - intros H device.
    destruct (assigned identifier s !! device) as [g|] eqn:Hg; [|done].
    apply assigned_lookup in Hg as [Hd ->]. by destruct (H device).
Qed.

(** The identifiers [model_to_schema] reads off [fetch_assigned] are the
    devices of the registry whose group is this one. *)
Lemma fetch_assigned_ids (s : Store) (identifier device : Z) :
  device ∈ map dm_id
    ((fun kv => mkDeviceModel kv.1 kv.2) <$> map_to_list (assigned identifier s)) <->
  assigned_to s identifier device.
Proof.
  unfold assigned_to. rewrite <- list_fmap_compose, list_elem_of_fmap. split.
  - intros [[d g] [-> Hin]]. cbn.
    apply elem_of_map_to_list, assigned_lookup in Hin as [Hd ->]. done.
  - intros Hd. exists (device, Some identifier). split; [done|].
    apply elem_of_map_to_list, assigned_lookup. auto.
Qed.

End DerivedDevices.

(** C6.  [delete_one] answers 404 when the group is absent, 409 when some
    device of the registry still has this group, and otherwise removes the
    group record and answers 200. *)
Theorem delete_one_outcomes (io : Stdio.t) (s : Store) (identifier : Z) :
  (~ group_exists s identifier ->
     groups.delete_one io db identifier s =
       (Return (api_error "group does not exist" 404), s)) /\
  (group_exists s identifier ->
   (exists device, assigned_to s identifier device) ->
     groups.delete_one io db identifier s =
       (Return (api_error "group is still assigned to some devices" 409), s)) /\
  (group_exists s identifier ->
   (forall device, ~ assigned_to s identifier device) ->
     exists s',
       groups.delete_one io db identifier s = (Return (EmptyBody, 200), s') /\
       st_groups s' = base.delete identifier (st_groups s) /\
       st_groups s' !! identifier = None /\
       st_devices s' = st_devices s).
Proof.
  unfold groups.delete_one, try_except_Exception, bind, query, ret, group_exists.
  destruct (st_groups s !! identifier) as [row|] eqn:Hg.
  - rewrite (fetch_one_found _ _ _ Hg). cbn [GroupsDb.delete db]. unfold delete.
    destruct (decide (assigned identifier s = ∅)) as [He|Hne]; cbn.
    + rewrite assigned_empty in He. split; [|split].
      * intros []; eauto.
      * intros _ [device Hd]. by destruct (He device).
      * intros _ _. eexists. split; [done|]. cbn.
        split; [done|]. split; [apply lookup_delete_eq | done].
    + rewrite assigned_empty in Hne. split; [|split].
      * intros []; eauto.
      * done.
      * intros _ Hall. contradiction.
  - rewrite (fetch_one_missing _ _ Hg). split; [|split].
    + done.
    + intros [? [=]].
    + intros [? [=]].
Qed.

Lemma delete_one_outcomes_witness :
  groups.delete_one console db 1 one_member =
    (Return (api_error "group is still assigned to some devices" 409), one_member) /\
  groups.delete_one console db 9 one_member =
    (Return (api_error "group does not exist" 404), one_member) /\
  (exists s',
     groups.delete_one console db 1 one_group = (Return (EmptyBody, 200), s') /\
     st_groups s' = base.delete 1 (st_groups one_group) /\
     st_groups s' !! 1 = None /\
     st_devices s' = st_devices one_group).
Proof.
  split; [|split].
  - apply (delete_one_outcomes console one_member 1).
    + vm_compute. eauto.
    + exists 5. vm_compute. reflexivity.
  - apply (delete_one_outcomes console one_member 9).
    intros [? H]. vm_compute in H. discriminate.
  - apply (delete_one_outcomes console one_group 1).
    + vm_compute. eauto.
    + intros device Hd. apply (assigned_empty one_group 1) in Hd; [done|].
      vm_compute. reflexivity.
Defined.

(** ** Package assignment *)

Lemma known_packages_spec (s : Store) (pkgs : list Z) :
  forallb (fun p => bool_decide (p ∈ st_packages s)) pkgs = true <->
  forall p, p ∈ pkgs -> p ∈ st_packages s.
Proof.
  rewrite forallb_forall. split; intros H p Hp.
  - apply list_elem_of_In in Hp. apply H in Hp. by apply bool_decide_eq_true in Hp.
  - apply bool_decide_eq_true, H, list_elem_of_In, Hp.
Qed.

(** C5.  [assign_package] answers 404 when the group is missing and only
    then; a package identifier that the package registry does not know gives
    409; with every package known the stored package set is replaced and the
    answer is 200. *)
Theorem assign_package_outcomes
    (io : Stdio.t) (s : Store) (identifier : Z) (assignment : AssignPackageRequest) :
  (~ group_exists s identifier ->
     groups.assign_package io db identifier assignment s =
       (Return (api_error "group does not exist" 404), s)) /\
  (group_exists s identifier ->
   (exists p, p ∈ req_packages assignment /\ p ∉ st_packages s) ->
     exists err,
       groups.assign_package io db identifier assignment s =
         (Return (api_error err 409), s)) /\
  (forall r s',
     groups.assign_package io db identifier assignment s = (Return r, s') ->
     status r = 404 -> ~ group_exists s identifier) /\
  (forall row,
     st_groups s !! identifier = Some row ->
     (forall p, p ∈ req_packages assignment -> p ∈ st_packages s) ->
     exists s',
       groups.assign_package io db identifier assignment s =
         (Return (EmptyBody, 200), s') /\
       st_groups s' !! identifier =
         Some (set_packages (req_packages assignment) row)).
Proof.
  unfold groups.assign_package, try_except_Exception, bind, query, ret, group_exists.
  destruct (st_groups s !! identifier) as [row|] eqn:Hg.
  - rewrite (fetch_one_found _ _ _ Hg). cbn [GroupsDb.modify_package db].
    unfold modify_package. rewrite Hg.
    destruct (forallb _ (req_packages assignment)) eqn:Hall.
    + rewrite known_packages_spec in Hall. split; [|split; [|split]].
      * intros []; eauto.
      * intros _ (p & Hp & Hno). destruct Hno. auto.
      * intros r s' [= <- <-]. cbn. discriminate.
      * intros row' [= <-] _. eexists. split; [done|]. cbn.
        by rewrite lookup_alter_eq, Hg.
    + assert (~ forall p, p ∈ req_packages assignment -> p ∈ st_packages s) as Hno.
      { rewrite <- known_packages_spec. congruence. }
      split; [|split; [|split]].
      * intros []; eauto.
      * intros _ _. eauto.
      * intros r s' [= <- <-]. cbn. discriminate.
      * intros row' _ Hyes. contradiction.
  - rewrite (fetch_one_missing _ _ Hg). split; [|split; [|split]].
    + done.
    + intros [? [=]].
    + intros r s' _ _ [? [=]].
    + intros row' [=].
Qed.

Lemma assign_package_outcomes_witness :
  (exists err,
     groups.assign_package console db 1 (mkAssignPackageRequest [1; 9]) one_group =
       (Return (api_error err 409), one_group)) /\
  groups.assign_package console db 4 (mkAssignPackageRequest [1]) one_group =
    (Return (api_error "group does not exist" 404), one_group).
Proof.
  split.
  - apply (assign_package_outcomes console one_group 1 (mkAssignPackageRequest [1; 9])).
    + vm_compute. eauto.
    + exists 9. split; [cbn; set_solver|]. vm_compute. intros H. discriminate.
  - apply (assign_package_outcomes console one_group 4 (mkAssignPackageRequest [1])).
    intros [? H]. vm_compute in H. discriminate.
Defined.

(** ** Policy assignment *)

(** C4.  [update_policy] answers 404 when the group does not exist; when the
    compiler rejects the text (it raises its [RuntimeError]) the answer is
    400 and the body carries the compiler's own reason; when the text
    compiles, the submitted string itself becomes the stored policy of the
    group and nothing else changes. *)
Theorem update_policy_outcomes
    (io : Stdio.t) (policy_create : string -> outcome Policy)
    (s : Store) (identifier : Z) (policy_request : AssignPolicyRequest) :
  (~ group_exists s identifier ->
     groups.update_policy io db policy_create identifier policy_request s =
       (Return (api_error "group does not exist" 404), s)) /\
  (forall e,
     group_exists s identifier ->
     policy_create (req_policy policy_request) = Raise e ->
     isinstance_RuntimeError e = true ->
     groups.update_policy io db policy_create identifier policy_request s =
       (Return (api_error ("invalid policy: " ++ exn_str e) 400), s)) /\
  (forall row p,
     st_groups s !! identifier = Some row ->
     policy_create (req_policy policy_request) = Return p ->
     exists s',
       groups.update_policy io db policy_create identifier policy_request s =
         (Return (EmptyBody, 200), s') /\
       (exists row', st_groups s' !! identifier = Some row' /\
                     row_policy row' = req_policy policy_request /\
                     row' = set_policy (req_policy policy_request) row) /\
       (forall other, other <> identifier ->
                      st_groups s' !! other = st_groups s !! other) /\
       st_devices s' = st_devices s).
Proof.
  unfold groups.update_policy, try_except_Exception, bind, query, ret, group_exists.
  destruct (st_groups s !! identifier) as [row|] eqn:Hg.
  - rewrite (fetch_one_found _ _ _ Hg). split; [|split].
    + intros []; eauto.
    + intros e _ -> ->. done.
    + intros row' p [= <-] ->. cbn. eexists. split; [done|]. cbn.
      split; [|split; [|done]].
      * exists (set_policy (req_policy policy_request) row).
        by rewrite lookup_alter_eq, Hg.
      * intros other Hne. by rewrite lookup_alter_ne.
  - rewrite (fetch_one_missing _ _ Hg). split; [|split].
    + done.
    + intros e [? [=]].
    + intros row p [=].
Qed.

Lemma update_policy_outcomes_witness :
  groups.update_policy console db policy.create 1 (mkAssignPolicyRequest "bogus") one_group =
    (Return (api_error "invalid policy: unknown policy kind: bogus" 400), one_group) /\
  groups.update_policy console db policy.create 4 (mkAssignPolicyRequest "no_update,") one_group =
    (Return (api_error "group does not exist" 404), one_group) /\
  (exists s',
     groups.update_policy console db policy.create 1
       (mkAssignPolicyRequest "exact_match,v1") one_group = (Return (EmptyBody, 200), s') /\
     exists row', st_groups s' !! 1 = Some row' /\ row_policy row' = "exact_match,v1").
Proof.
  split; [|split].
  - apply (proj1 (proj2 (update_policy_outcomes console policy.create one_group 1
                           (mkAssignPolicyRequest "bogus")))
             (policy.parse_error "unknown policy kind: bogus")).
    + vm_compute. eauto.
    + reflexivity.
    + reflexivity.
  - apply (update_policy_outcomes console policy.create one_group 4
             (mkAssignPolicyRequest "no_update,")).
    intros [? H]. vm_compute in H. discriminate.
  - destruct (proj2 (proj2 (update_policy_outcomes console policy.create one_group 1
                              (mkAssignPolicyRequest "exact_match,v1")))
                (to_row (mkGroupModel 0 7 description "no_update," 25))
                (mkPolicy "exact_match" ["v1"]))
      as (s' & Hrun & (row' & Hrow & Hpol & _) & _).
    + vm_compute. reflexivity.
    + reflexivity.
    + exists s'. split; [exact Hrun|]. exists row'. split; [exact Hrow | exact Hpol].
Defined.

(** C9.  Whatever database and console stand behind the handler: once the
    group has been found, a [RuntimeError] of the compiler gives 400 with its
    reason; an exception of any other class below [Exception] is taken by the
    outer guard, whose [except] block runs with the answer 500, and that
    answer is returned when the block's logging returns; in every case the
    store is the one the request started from. *)
Theorem update_policy_exception_classes
    {S : Type} (io : Stdio.t) (gdb : GroupsDb.t S)
    (policy_create : string -> outcome Policy)
    (identifier : Z) (policy_request : AssignPolicyRequest)
    (s : S) (group : GroupModel) (e : exn) :
  GroupsDb.fetch_one gdb identifier s = Return (Some group) ->
  policy_create (req_policy policy_request) = Raise e ->
  isinstance_Exception e = true ->
  (isinstance_RuntimeError e = true ->
     groups.update_policy io gdb policy_create identifier policy_request s =
       (Return (api_error ("invalid policy: " ++ exn_str e) 400), s)) /\
  (isinstance_RuntimeError e = false ->
     groups.update_policy io gdb policy_create identifier policy_request s =
       report io "Exception during group policy assignment:"
         (api_error "group policy assignment failed" 500) e s) /\
  (isinstance_RuntimeError e = false -> logs io e ->
     groups.update_policy io gdb policy_create identifier policy_request s =
       (Return (api_error "group policy assignment failed" 500), s)) /\
  (groups.update_policy io gdb policy_create identifier policy_request s).2 = s.
Proof.
  intros Hfetch Hraise Hexc.
  assert (isinstance_RuntimeError e = false ->
          groups.update_policy io gdb policy_create identifier policy_request s =
            report io "Exception during group policy assignment:"
              (api_error "group policy assignment failed" 500) e s) as Hguard.
  { intros Hrt.
    unfold groups.update_policy, try_except_Exception, bind, query, ret, raise.
    by rewrite Hfetch, Hraise, Hrt, Hexc. }
  split; [|split; [|split]].
  - intros Hrt.
    unfold groups.update_policy, try_except_Exception, bind, query, ret, raise.
    by rewrite Hfetch, Hraise, Hrt.
  - exact Hguard.
  - intros Hrt Hlogs. rewrite (Hguard Hrt). by apply report_logs.
  - destruct (isinstance_RuntimeError e) eqn:Hrt.
    + unfold groups.update_policy, try_except_Exception, bind, query, ret, raise.
      by rewrite Hfetch, Hraise, Hrt.
    + rewrite (Hguard eq_refl). apply report_store.
Qed.

Lemma update_policy_exception_classes_witness :
  groups.update_policy console db crashing_compiler 1 (mkAssignPolicyRequest "exact_match") one_group =
    (Return (api_error "group policy assignment failed" 500), one_group) /\
  groups.update_policy console db policy.create 1 (mkAssignPolicyRequest "exact_match") one_group =
    (Return (api_error "invalid policy: exact_match takes one version" 400), one_group).
Proof.
  split.
  - apply (proj1 (proj2 (proj2
             (update_policy_exception_classes console db crashing_compiler 1
                (mkAssignPolicyRequest "exact_match") one_group
                (to_model 1 (to_row (mkGroupModel 0 7 description "no_update," 25)))
                (Exn InException "IndexError" "list index out of range")
                eq_refl eq_refl eq_refl)))).
    + reflexivity.
    + split; [reflexivity|]. eexists. split; reflexivity.
  - apply (proj1
             (update_policy_exception_classes console db policy.create 1
                (mkAssignPolicyRequest "exact_match") one_group
                (to_model 1 (to_row (mkGroupModel 0 7 description "no_update," 25)))
                (policy.parse_error "exact_match takes one version")
                eq_refl eq_refl eq_refl)).
    reflexivity.
Defined.

(** ** Group representations *)

Lemma model_to_schema_run (s : Store) (group : GroupModel) :
  groups.model_to_schema db group s = (Return (schema_of s group), s).
Proof. reflexivity. Qed.

Lemma mapM_model_to_schema (s : Store) (l : list GroupModel) :
  mapM (groups.model_to_schema db) l s = (Return (map (schema_of s) l), s).
Proof.
  induction l as [|group l IH]; [reflexivity|].
  cbn [mapM]. unfold bind at 1. rewrite model_to_schema_run.
  unfold bind at 1. rewrite IH. reflexivity.
Qed.

Section RepresentationsOnTheStore.

Variable io : Stdio.t.
Variable schema : GroupSchema.t.

Lemma dumped_answer_group (label : string) (failure : response) (wrap : json -> body)
    (dumped : outcome json) (s s' : Store) (b : body) :
  is_error_body failure.1 ->
  ~ is_error_body b ->
  dumped_answer io label failure wrap dumped s = (Return (b, 200), s') ->
  s' = s /\ exists j, dumped = Return j /\ b = wrap j.
Proof.
  intros Hfail Hb. unfold dumped_answer.
  destruct dumped as [j|e].
  - unfold ret. intros [= <- <-]. eauto.
  - destruct (isinstance_Exception e); [|discriminate].
    intros Hrun. apply report_returns in Hrun as [Hr _].
    destruct Hb. by rewrite <- Hr in Hfail.
Qed.

Lemma dumped_answer_store (label : string) (failure : response) (wrap : json -> body)
    (dumped : outcome json) (s : Store) :
  (dumped_answer io label failure wrap dumped s).2 = s.
Proof.
  unfold dumped_answer. destruct dumped as [j|e]; [done|].
  destruct (isinstance_Exception e); [apply report_store | done].
Qed.

Lemma fetch_all_run (s : Store) :
  groups.fetch_all io schema db s =
    dumped_answer io "Exception during group fetch:" (api_error "fetching failed" 500)
      GroupListBody
      (GroupSchema.dump_many schema
         (map (schema_of s)
              ((fun kv => to_model kv.1 kv.2) <$> map_to_list (st_groups s)))) s.
Proof.
  unfold groups.fetch_all, dumped_answer, try_except_Exception, bind, query, pure, ret, raise.
  cbn [GroupsDb.fetch_all db]. unfold fetch_all. rewrite mapM_model_to_schema.
  destruct (GroupSchema.dump_many schema _) as [j|e]; [done|].
  by destruct (isinstance_Exception e).
Qed.

Lemma fetch_one_run (s : Store) (identifier : Z) (row : GroupRow) :
  st_groups s !! identifier = Some row ->
  groups.fetch_one io schema db identifier s =
    dumped_answer io "Exception during group fetch:" (api_error "fetching failed" 500)
      GroupBody (GroupSchema.dump schema (schema_of s (to_model identifier row))) s.
Proof.
  intros Hg.
  unfold groups.fetch_one, dumped_answer, try_except_Exception, bind, query, pure, ret, raise.
  rewrite (fetch_one_found _ _ _ Hg), model_to_schema_run.
  destruct (GroupSchema.dump schema _) as [j|e]; [done|].
  by destruct (isinstance_Exception e).
Qed.

Lemma create_run (s : Store) (utcnow : datetime) (metadata : json) :
  let group := mkGroupModel 0 utcnow metadata "no_update," GROUP_DEFAULT_PRIORITY in
  let s' := (create group s).2 in
  groups.create io schema db utcnow metadata s =
    dumped_answer io "Exception during group creation:"
      (api_error "group creation failed" 500) GroupBody
      (GroupSchema.dump schema (schema_of s' (to_model (st_next_id s) (to_row group)))) s'.
Proof.
  cbn zeta.
  unfold groups.create, dumped_answer, try_except_Exception, bind, query, pure, ret, raise.
  cbn [GroupsDb.create db]. unfold create at 1. rewrite model_to_schema_run.
  destruct (GroupSchema.dump schema _) as [j|e]; [done|].
  by destruct (isinstance_Exception e).
Qed.

Lemma fetch_all_store (s : Store) : (groups.fetch_all io schema db s).2 = s.
Proof. rewrite fetch_all_run. apply dumped_answer_store. Qed.

Lemma fetch_one_store (s : Store) (identifier : Z) :
  (groups.fetch_one io schema db identifier s).2 = s.
Proof.
  destruct (st_groups s !! identifier) as [row|] eqn:Hg.
  - rewrite (fetch_one_run _ _ _ Hg). apply dumped_answer_store.
  - unfold groups.fetch_one, try_except_Exception, bind, query, ret.
    by rewrite (fetch_one_missing _ _ Hg).
Qed.

Lemma create_store (s : Store) (utcnow : datetime) (metadata : json) :
  (groups.create io schema db utcnow metadata s).2 =
    (create (mkGroupModel 0 utcnow metadata "no_update," GROUP_DEFAULT_PRIORITY) s).2.
Proof. rewrite create_run. apply dumped_answer_store. Qed.

End RepresentationsOnTheStore.

Lemma schema_of_current (s : Store) (identifier : Z) (row : GroupRow) :
  st_groups s !! identifier = Some row ->
  current_view s (schema_of s (to_model identifier row)).
Proof.
  intros Hg. split; cbn.
  - intros device. apply fetch_assigned_ids.
  - exists row. by rewrite Hg.
Qed.

(** C8.  In the answers of [fetch_one], [fetch_all] and [create] what has
    been written out is a representation whose [devices] are exactly the
    devices whose group, in the store at the time of the answer, is the group
    represented, and whose [packages] is the package list stored with that
    group at that time. *)
Theorem representations_are_current
    (io : Stdio.t) (schema : GroupSchema.t) (s : Store) :
  (forall identifier dumped s',
     groups.fetch_one io schema db identifier s = (Return (GroupBody dumped, 200), s') ->
     s' = s /\
     exists g, GroupSchema.dump schema g = Return dumped /\
               g_id g = identifier /\ current_view s g) /\
  (forall dumped s',
     groups.fetch_all io schema db s = (Return (GroupListBody dumped, 200), s') ->
     s' = s /\
     exists gs, GroupSchema.dump_many schema gs = Return dumped /\
                forall g, g ∈ gs -> current_view s g) /\
  (forall utcnow metadata dumped s',
     groups.create io schema db utcnow metadata s = (Return (GroupBody dumped, 200), s') ->
     exists g, GroupSchema.dump schema g = Return dumped /\ current_view s' g).
Proof.
  split; [|split].
  - intros identifier dumped s' Hrun.
    destruct (st_groups s !! identifier) as [row|] eqn:Hg.
    + rewrite (fetch_one_run _ _ _ _ _ Hg) in Hrun.
      apply dumped_answer_group in Hrun as (-> & j & Hj & [= ->]); [|done|cbn; auto].
      split; [done|]. eexists. split; [exact Hj|].
      split; [done|]. by apply schema_of_current.
    + unfold groups.fetch_one, try_except_Exception, bind, query, ret in Hrun.
      rewrite (fetch_one_missing _ _ Hg) in Hrun. discriminate.
  - intros dumped s' Hrun. rewrite fetch_all_run in Hrun.
    apply dumped_answer_group in Hrun as (-> & j & Hj & [= ->]); [|done|cbn; auto].
    split; [done|]. eexists. split; [exact Hj|]. intros g Hin.
    apply list_elem_of_In, in_map_iff in Hin as (group & <- & Hin).
    apply list_elem_of_In, list_elem_of_fmap in Hin as ([identifier row] & -> & Hin).
    apply elem_of_map_to_list in Hin. by apply schema_of_current.
  - intros utcnow metadata dumped s' Hrun. rewrite create_run in Hrun.
    apply dumped_answer_group in Hrun as (-> & j & Hj & [= ->]); [|done|cbn; auto].
    eexists. split; [exact Hj|]. apply schema_of_current. cbn.
    apply lookup_insert_eq.
Qed.

Lemma representations_are_current_witness :
  one_member = one_member /\
  exists g, schema_v1.dump g =
              Return (schema_v1.render (mkGroup 1 7 [] [5] description "no_update,")) /\
            g_id g = 1 /\ current_view one_member g.
Proof.
  apply (proj1 (representations_are_current console schema_v1.schema one_member)
           1 _ one_member).
  vm_compute. reflexivity.
Defined.

(** The view follows the registry: what [fetch_one] shows for group 1 before
    and after device 5 has joined. *)
Example fetch_one_follows_membership :
  (groups.fetch_one console schema_v1.schema db 1 one_group).1 =
    Return (GroupBody
              (schema_v1.render (mkGroup 1 7 [] [] description "no_update,")), 200) /\
  (groups.fetch_one console schema_v1.schema db 1 one_member).1 =
    Return (GroupBody
              (schema_v1.render (mkGroup 1 7 [] [5] description "no_update,")), 200).
Proof. split; vm_compute; reflexivity. Qed.

(** ** Creation *)

(** On a well-formed store no device refers to the identifier that is handed
    out next. *)
Lemma next_id_unassigned (s : Store) :
  well_formed s ->
  st_groups s !! st_next_id s = None /\ assigned (st_next_id s) s = ∅.
Proof.
  intros [Hdev Hid].
  assert (~ group_exists s (st_next_id s)) as Hfresh.
  { intros Hex. apply Hid in Hex. lia. }
  split.
  - apply eq_None_not_Some. exact Hfresh.
  - apply assigned_empty. intros device Hd. apply Hfresh, (Hdev device), Hd.
Qed.

(** C7.  Whatever the metadata, [create] on a well-formed store yields a
    group created at the time of the call, with the policy "no_update,",
    priority 25, the metadata as supplied, no package and no device: this is
    the record stored under an identifier that was not in use, and it is the
    representation handed to the response schema, whose written form is the
    answer, with 200, when the schema returns. *)
Theorem create_defaults
    (io : Stdio.t) (schema : GroupSchema.t)
    (s : Store) (utcnow : datetime) (metadata : json) :
  well_formed s ->
  exists g s',
    (groups.create io schema db utcnow metadata s).2 = s' /\
    groups.create io schema db utcnow metadata s =
      dumped_answer io "Exception during group creation:"
        (api_error "group creation failed" 500) GroupBody
        (GroupSchema.dump schema g) s' /\
    (forall dumped,
       GroupSchema.dump schema g = Return dumped ->
       groups.create io schema db utcnow metadata s =
         (Return (GroupBody dumped, 200), s')) /\
    g_created g = utcnow /\
    g_policy g = "no_update," /\
    g_metadata g = metadata /\
    g_packages g = [] /\
    g_devices g = [] /\
    st_groups s !! g_id g = None /\
    st_groups s' !! g_id g =
      Some {| row_created := utcnow;
              row_info := metadata;
              row_policy := "no_update,";
              row_priority := 25;
              row_packages := [] |} /\
    (forall device, ~ assigned_to s' (g_id g) device).
Proof.
  intros Hwf. destruct (next_id_unassigned s Hwf) as [Hfresh Hnone].
  eexists _, _. split; [apply create_store|].
  split; [apply create_run|].
  split; [intros dumped Hd; by rewrite create_run, Hd|].
  cbn. rewrite lookup_insert_eq. cbn.
  repeat (split; [done|]).
  split; [|split; [done|split; [done|]]].
  - change (assigned (st_next_id s) _) with (assigned (st_next_id s) s).
    by rewrite Hnone, map_to_list_empty.
  - by apply assigned_empty.
Qed.

Lemma well_formed_fleet : well_formed fleet.
Proof.
  split.
  - intros device g H. exfalso. revert H. cbn.
    rewrite !lookup_insert, lookup_empty. repeat case_decide; discriminate.
  - intros g [row H]. cbn in H. by rewrite lookup_empty in H.
Qed.

Lemma create_defaults_witness :
  exists g s',
    groups.create console schema_v1.schema db 7 description fleet =
      (Return (GroupBody (schema_v1.render g), 200), s') /\
    g_created g = 7 /\
    g_policy g = "no_update," /\
    g_metadata g = description /\
    g_packages g = [] /\
    g_devices g = [] /\
    st_groups fleet !! g_id g = None /\
    st_groups s' !! g_id g = Some (mkGroupRow 7 description "no_update," 25 []).
Proof.
  destruct (create_defaults console schema_v1.schema fleet 7 description well_formed_fleet)
    as (g & s' & _ & _ & Hok & Hc & Hp & Hm & Hpk & Hd & Hfresh & Hrow & _).
  exists g, s'. split.
  - apply Hok. unfold schema_v1.schema, schema_v1.dump. cbn. by rewrite Hm.
  - repeat split; assumption.
Defined.


Lemma console_logs (e : exn) : logs console e.
Proof. split; [done|]. eexists. split; [done|]. done. Qed.



(** One payload of each shape, against the schema of the docstrings: each is
    stored as it came; an object and [null] are answered with 200, the other
    shapes with 500. *)
Example create_payload_shapes :
  map (fun metadata =>
         let run := groups.create console schema_v1.schema db 7 metadata fleet in
         (match run.1 with Return answer => Some (status answer) | Raise _ => None end,
          row_info <$> st_groups run.2 !! 1))
      [JObj [("description", JStr "A test group")];
       JArr [JInt 1; JStr "two"];
       JStr "plain";
       JInt 42;
       JBool true;
       JNull] =
  [(Some 200, Some (JObj [("description", JStr "A test group")]));
   (Some 500, Some (JArr [JInt 1; JStr "two"]));
   (Some 500, Some (JStr "plain"));
   (Some 500, Some (JInt 42));
   (Some 500, Some (JBool true));
   (Some 200, Some JNull)].
Proof. vm_compute. reflexivity. Qed.

(** ** The stored policy *)

Section StoredPolicy.

Variable io : Stdio.t.
Variable schema : GroupSchema.t.
Variable policy_create : string -> outcome Policy.

Lemma policy_step_refl (s : Store) : policy_step policy_create s s.
Proof. intros identifier row' H. right. right. eauto. Qed.

Lemma policy_step_same_groups (s s' : Store) :
  st_groups s' = st_groups s -> policy_step policy_create s s'.
Proof. intros Heq identifier row' H. rewrite Heq in H. right. right. eauto. Qed.

Lemma update_policy_rejected (s : Store) (identifier : Z)
    (policy_request : AssignPolicyRequest) (e : exn) :
  policy_create (req_policy policy_request) = Raise e ->
  (groups.update_policy io db policy_create identifier policy_request s).2 = s.
Proof.
  intros Hraise. unfold groups.update_policy. rewrite guard_store.
  unfold bind, query, ret, raise.
  cbn [GroupsDb.fetch_one db]. unfold fetch_one.
  destruct (st_groups s !! identifier) as [row|]; cbn; [|done].
  rewrite Hraise. by destruct (isinstance_RuntimeError e).
Qed.

Lemma dispatch_policy_step (r : request) (s : Store) :
  policy_step policy_create s (dispatch io schema db policy_create r s).2.
Proof.
  destruct r as [|identifier|identifier|identifier instructions|utcnow metadata
                 |identifier assignment|identifier policy_request]; cbn [dispatch].
  - rewrite fetch_all_store. apply policy_step_refl.
  - rewrite fetch_one_store. apply policy_step_refl.
  - unfold groups.delete_one, try_except_Exception, bind, query, ret.
    cbn [GroupsDb.fetch_one GroupsDb.delete db]. unfold fetch_one, delete.
    destruct (st_groups s !! identifier) as [row|]; cbn; [|apply policy_step_refl].
    destruct (decide (assigned identifier s = ∅)); cbn; [|apply policy_step_refl].
    intros other row' H. cbn in H. apply lookup_delete_Some in H as [_ H].
    right. right. eauto.
  - unfold groups.change_assigned, try_except_Exception, bind, query, ret.
    cbn [GroupsDb.fetch_one GroupsDb.modify_assignment db]. unfold fetch_one.
    destruct (st_groups s !! identifier) as [row|]; cbn; [|apply policy_step_refl].
    destruct (modify_assignment_cases s identifier instructions)
      as [[_ ->]|[_ [err ->]]]; cbn; [|apply policy_step_refl].
    by apply policy_step_same_groups.
  - rewrite create_store. intros other row' H. cbn in H.
    apply lookup_insert_Some in H as [[_ <-]|[_ H]]; [by left|].
    right. right. eauto.
  - unfold groups.assign_package, try_except_Exception, bind, query, ret.
    cbn [GroupsDb.fetch_one GroupsDb.modify_package db]. unfold fetch_one, modify_package.
    destruct (st_groups s !! identifier) as [row|] eqn:Hg; cbn; [|apply policy_step_refl].
    rewrite Hg.
    destruct (forallb _ (req_packages assignment)); cbn; [|apply policy_step_refl].
    intros other row' H. cbn in H. right. right.
    destruct (decide (other = identifier)) as [->|Hne].
    + rewrite lookup_alter_eq, Hg in H. injection H as <-. eauto.
    + rewrite lookup_alter_ne in H by done. eauto.
  - destruct (policy_create (req_policy policy_request)) as [p|e] eqn:Hc.
    + unfold groups.update_policy, try_except_Exception, bind, query, ret.
      cbn [GroupsDb.fetch_one GroupsDb.update_policy db]. unfold fetch_one, update_policy.
      destruct (st_groups s !! identifier) as [row|] eqn:Hg; cbn; [|apply policy_step_refl].
      rewrite Hc. cbn.
      intros other row' H. cbn in H.
      destruct (decide (other = identifier)) as [->|Hne].
      * rewrite lookup_alter_eq, Hg in H. injection H as <-.
        right. left. exists p. exact Hc.
      * rewrite lookup_alter_ne in H by done. right. right. eauto.
    + rewrite (update_policy_rejected _ _ _ _ Hc). apply policy_step_refl.
Qed.

Lemma dispatch_policy_valid (r : request) (s : Store) :
  policy_valid policy_create s ->
  policy_valid policy_create (dispatch io schema db policy_create r s).2.
Proof.
  intros Hs identifier row' H.
  destruct (dispatch_policy_step r s identifier row' H) as [Hd|[Hc|(row & Hrow & ->)]];
    [by left | by right | exact (Hs identifier row Hrow)].
Qed.

Lemma serve_policy_valid (rs : list request) (s : Store) :
  policy_valid policy_create s ->
  policy_valid policy_create (serve io schema db policy_create rs s).
Proof.
  revert s. induction rs as [|r rs IH]; intros s Hs; [exact Hs|].
  cbn. apply IH, dispatch_policy_valid, Hs.
Qed.

Lemma empty_policy_valid (devs : gmap Z (option Z)) (pkgs : gset Z) :
  policy_valid policy_create (SpecStore.empty devs pkgs).
Proof. intros identifier row H. cbn in H. by rewrite lookup_empty in H. Qed.

End StoredPolicy.

(** C3.  Every stored policy is "no_update," or a text the compiler accepted:
    this holds of every store reached by serving requests from a store where
    it holds, in particular from one without groups; and an [update_policy]
    whose text the compiler does not accept leaves the store, and with it
    the policy of the group, as it was. *)
Theorem stored_policy_default_or_compiled
    (io : Stdio.t) (schema : GroupSchema.t)
    (policy_create : string -> outcome Policy) :
  (forall rs s,
     policy_valid policy_create s ->
     policy_valid policy_create (serve io schema db policy_create rs s)) /\
  (forall rs devs pkgs,
     policy_valid policy_create
       (serve io schema db policy_create rs (SpecStore.empty devs pkgs))) /\
  (forall s identifier policy_request,
     ~ compiles policy_create (req_policy policy_request) ->
     (groups.update_policy io db policy_create identifier policy_request s).2 = s).
Proof.
  split; [|split].
  - intros rs s. apply serve_policy_valid.
  - intros rs devs pkgs. apply serve_policy_valid, empty_policy_valid.
  - intros s identifier policy_request Hno.
    destruct (policy_create (req_policy policy_request)) as [p|e] eqn:Hc.
    + destruct Hno. by exists p.
    + by apply (update_policy_rejected _ _ _ _ _ e).
Qed.

Lemma stored_policy_default_or_compiled_witness :
  policy_valid policy.create
    (serve console schema_v1.schema db policy.create
       [PostPolicy 1 (mkAssignPolicyRequest "exact_match,v1");
        PostPolicy 1 (mkAssignPolicyRequest "bogus")] one_group) /\
  (groups.update_policy console db policy.create 1 (mkAssignPolicyRequest "bogus") one_group).2 =
    one_group.
Proof.
  split.
  - apply (proj1 (stored_policy_default_or_compiled console schema_v1.schema policy.create)).
    intros identifier row H. left. revert H. cbn.
    rewrite lookup_insert, lookup_empty. case_decide; [|discriminate].
    by intros [= <-].
  - apply (proj2 (proj2 (stored_policy_default_or_compiled console schema_v1.schema
                           policy.create))).
    intros [p H]. vm_compute in H. discriminate.
Defined.

(** What the document's example leaves in the store: the rejected text is
    not there, the accepted one is. *)
Example bogus_policy_not_stored :
  row_policy <$>
    st_groups (serve console schema_v1.schema db policy.create
                 [PostPolicy 1 (mkAssignPolicyRequest "bogus")] one_group) !! 1 =
    Some "no_update," /\
  row_policy <$>
    st_groups (serve console schema_v1.schema db policy.create
                 [PostPolicy 1 (mkAssignPolicyRequest "exact_match,v1");
                  PostPolicy 1 (mkAssignPolicyRequest "bogus")] one_group) !! 1 =
    Some "exact_match,v1".
Proof. split; vm_compute; reflexivity. Qed.

(** ** Well-formed stores stay well-formed *)

Section WellFormed.

Variable io : Stdio.t.
Variable schema : GroupSchema.t.
Variable policy_create : string -> outcome Policy.

Lemma assign_all_lookup (target : option Z) (ids : list Z)
    (devs : gmap Z (option Z)) (device : Z) :
  assign_all target ids devs !! device =
    if decide (device ∈ ids) then Some target else devs !! device.
Proof.
  unfold assign_all. revert devs.
  induction ids as [|x ids IH]; intros devs; cbn.
  - case_decide as Hin; [by apply elem_of_nil in Hin | done].
  - rewrite IH.
    destruct (decide (device ∈ ids)) as [Hin|Hout];
      destruct (decide (device ∈ x :: ids)) as [Hin'|Hout'].
    + done.
    + destruct Hout'. by right.
    + apply elem_of_cons in Hin' as [->|Hin']; [|contradiction].
      apply lookup_insert_eq.
    + apply lookup_insert_ne. intros ->. apply Hout'. by left.
Qed.

Lemma well_formed_same_shape (s s' : Store) :
  (forall g, group_exists s' g <-> group_exists s g) ->
  st_devices s' = st_devices s ->
  st_next_id s' = st_next_id s ->
  well_formed s -> well_formed s'.
Proof.
  intros Hg Hd Hn [Hdev Hid]. split.
  - intros device g H. rewrite Hd in H. apply Hg, (Hdev device), H.
  - intros g H. rewrite Hn. apply Hid, Hg, H.
Qed.

Lemma alter_exists (f : GroupRow -> GroupRow) (s : Store) (identifier g : Z) :
  group_exists (with_groups (alter f identifier) s) g <-> group_exists s g.
Proof.
  unfold group_exists. cbn.
  destruct (decide (g = identifier)) as [->|Hne].
  - rewrite lookup_alter_eq. by rewrite fmap_is_Some.
  - by rewrite lookup_alter_ne.
Qed.

Lemma dispatch_well_formed (r : request) (s : Store) :
  well_formed s -> well_formed (dispatch io schema db policy_create r s).2.
Proof.
  intros Hwf.
  destruct r as [|identifier|identifier|identifier instructions|utcnow metadata
                 |identifier assignment|identifier policy_request]; cbn [dispatch].
  - by rewrite fetch_all_store.
  - by rewrite fetch_one_store.
  - unfold groups.delete_one, try_except_Exception, bind, query, ret.
    cbn [GroupsDb.fetch_one GroupsDb.delete db]. unfold fetch_one, delete.
    destruct (st_groups s !! identifier) as [row|]; cbn; [|done].
    destruct (decide (assigned identifier s = ∅)) as [He|]; cbn; [|done].
    destruct Hwf as [Hdev Hid]. rewrite assigned_empty in He. split.
    + intros device g H. cbn in H. unfold group_exists. cbn.
      destruct (decide (g = identifier)) as [Heq|Hne].
      * exfalso. apply (He device). unfold assigned_to. by rewrite <- Heq.
      * rewrite lookup_delete_ne by done. apply (Hdev device), H.
    + intros g [row' H]. cbn in H. apply lookup_delete_Some in H as [_ H].
      apply Hid. by exists row'.
  - unfold groups.change_assigned, try_except_Exception, bind, query, ret.
    cbn [GroupsDb.fetch_one GroupsDb.modify_assignment db]. unfold fetch_one.
    destruct (st_groups s !! identifier) as [row|] eqn:Hg; cbn; [|done].
    destruct (modify_assignment_cases s identifier instructions)
      as [[_ ->]|[_ [err ->]]]; cbn; [|done].
    destruct Hwf as [Hdev Hid]. split; [|exact Hid].
    intros device g H. cbn in H. rewrite !assign_all_lookup in H.
    unfold group_exists. cbn.
    repeat case_decide; try discriminate.
    + injection H as <-. by rewrite Hg.
    + apply (Hdev device), H.
  - rewrite create_store. cbn. destruct Hwf as [Hdev Hid]. split.
    + intros device g H. cbn in H. unfold group_exists. cbn.
      destruct (decide (g = st_next_id s)) as [->|Hne].
      * by rewrite lookup_insert_eq.
      * rewrite lookup_insert_ne by done. apply (Hdev device), H.
    + intros g [row' H]. cbn in H |- *.
      apply lookup_insert_Some in H as [[<- _]|[_ H]]; [lia|].
      assert (g < st_next_id s) by (apply Hid; by exists row'). lia.
  - unfold groups.assign_package, try_except_Exception, bind, query, ret.
    cbn [GroupsDb.fetch_one GroupsDb.modify_package db]. unfold fetch_one, modify_package.
    destruct (st_groups s !! identifier) as [row|] eqn:Hg; cbn; [|done].
    rewrite Hg.
    destruct (forallb _ (req_packages assignment)); cbn; [|done].
    eapply well_formed_same_shape; [apply alter_exists| | |exact Hwf]; done.
  - destruct (policy_create (req_policy policy_request)) as [p|e] eqn:Hc.
    + unfold groups.update_policy, try_except_Exception, bind, query, ret.
      cbn [GroupsDb.fetch_one GroupsDb.update_policy db]. unfold fetch_one, update_policy.
      destruct (st_groups s !! identifier) as [row|] eqn:Hg; cbn; [|done].
      rewrite Hc. cbn.
      eapply well_formed_same_shape; [apply alter_exists| | |exact Hwf]; done.
    + by rewrite (update_policy_rejected _ _ _ _ _ _ Hc).
Qed.

Lemma serve_well_formed (rs : list request) (s : Store) :
  well_formed s -> well_formed (serve io schema db policy_create rs s).
Proof.
  revert s. induction rs as [|r rs IH]; intros s Hs; [exact Hs|].
  cbn. apply IH, dispatch_well_formed, Hs.
Qed.

End WellFormed.

(** ** Worked examples from the design document *)

(** An object raised by the compiler that does not derive from [Exception]
    passes both [except] clauses of [update_policy]; nothing is written. *)
Remark update_policy_base_exception
    {S : Type} (io : Stdio.t) (gdb : GroupsDb.t S)
    (policy_create : string -> outcome Policy)
    (identifier : Z) (policy_request : AssignPolicyRequest)
    (s : S) (group : GroupModel) (e : exn) :
  GroupsDb.fetch_one gdb identifier s = Return (Some group) ->
  policy_create (req_policy policy_request) = Raise e ->
  isinstance_Exception e = false ->
  groups.update_policy io gdb policy_create identifier policy_request s = (Raise e, s).
Proof.
  intros Hfetch Hraise Hexc.
  unfold groups.update_policy, try_except_Exception, bind, query, ret, raise.
  rewrite Hfetch, Hraise.
  assert (isinstance_RuntimeError e = false) as ->.
  { revert Hexc. unfold isinstance_Exception, isinstance_RuntimeError.
    by destruct (exn_base_of e). }
  by rewrite Hexc.
Qed.

(** The compiler on the three texts of section 8. *)
Example compile_examples :
  policy.create "exact_match,v1" = Return (mkPolicy "exact_match" ["v1"]) /\
  policy.create "no_update," = Return (mkPolicy "no_update" []) /\
  policy.create "bogus_kind,x" =
    Raise (policy.parse_error "unknown policy kind: bogus_kind").
Proof. repeat split. Qed.

(** Adding device 5 twice: the second request is a conflict. *)
Example second_addition_conflicts :
  (groups.change_assigned console db 1 (mkAssignDeviceRequest [5] []) one_group).1 =
    Return (EmptyBody, 200) /\
  (groups.change_assigned console db 1 (mkAssignDeviceRequest [5] []) one_member).1 =
    Return (api_error "device already assigned to a group" 409).
Proof. split; vm_compute; reflexivity. Qed.

(** A group with a device cannot be deleted; once the device has left, it
    can. *)
Example delete_after_removal :
  (groups.delete_one console db 1 one_member).1 =
    Return (api_error "group is still assigned to some devices" 409) /\
  (groups.delete_one console db 1
     (serve console schema_v1.schema db policy.create
        [PatchDevices 1 (mkAssignDeviceRequest [] [5])] one_member)).1 =
    Return (EmptyBody, 200).
Proof. split; vm_compute; reflexivity. Qed.

(** Packages [1; 2] and then [3]: the second assignment replaces the first. *)
Example packages_are_replaced :
  (groups.fetch_one console schema_v1.schema db 1
     (serve console schema_v1.schema db policy.create
        [PostPackage 1 (mkAssignPackageRequest [1; 2]);
         PostPackage 1 (mkAssignPackageRequest [3])] one_group)).1 =
    Return (GroupBody
              (schema_v1.render (mkGroup 1 7 [3] [] description "no_update,")), 200).
Proof. vm_compute. reflexivity. Qed.

(** ** The handlers over any database *)

(** Everything in this part holds for every implementation of the groups
    database and every policy compiler: it is read off groups.py alone. *)

Ltac unfold_handlers :=
  unfold groups.fetch_all, groups.fetch_one, groups.delete_one,
    groups.change_assigned, groups.create, groups.assign_package,
    groups.update_policy, groups.model_to_schema,
    try_except_Exception, bind, query, pure, ret, raise.

Section AnyDatabase.

Context {S : Type}.
Variable io : Stdio.t.
Variable schema : GroupSchema.t.
Variable gdb : GroupsDb.t S.
Variable policy_create : string -> outcome Policy.

Lemma guard_escapes (work : M S response) (label : string) (answer : response)
    (s s' : S) (e' : exn) :
  try_except_Exception work (report io label answer) s = (Raise e', s') ->
  isinstance_Exception e' = false \/
  exists e, isinstance_Exception e = true /\ raised_while_logging io e e'.
Proof.
  unfold try_except_Exception.
  destruct (work s) as [[a|e] s0]; [discriminate|].
  destruct (isinstance_Exception e) eqn:He.
  - intros Hrun. right. exists e. split; [done|]. by apply report_raises in Hrun.
  - intros [= <- _]. by left.
Qed.

(** X1.  An exception that derives from [Exception] leaves a handler only out
    of the logging of its [except] block: whatever the database, the schema
    and the compiler raise, a request that ends with an exception ends with
    an object outside [Exception], or with what [traceback.print_exc],
    [repr] or [print] raised while an exception was being reported. *)
Theorem exceptions_leave_through_logging_only (r : request) (s s' : S) (e' : exn) :
  dispatch io schema gdb policy_create r s = (Raise e', s') ->
  isinstance_Exception e' = false \/
  exists e, isinstance_Exception e = true /\ raised_while_logging io e e'.
Proof.
  destruct r; cbn [dispatch]; apply guard_escapes.
Qed.

(** X2.  Every answer carries a status code that the handler of the route can
    return; with 200 comes the body of the route (a group, a list of groups,
    or the empty object) and with every other code an error message. *)
Theorem answers_fit_route (r : request) (s s' : S) (resp : response) :
  dispatch io schema gdb policy_create r s = (Return resp, s') ->
  status resp ∈ allowed_status r /\
  (if decide (status resp = 200) then success_body r resp.1
   else is_error_body resp.1).
Proof.
  destruct r; cbn [dispatch]; unfold_handlers; unfold report, bind, pure, ret;
    intros H; repeat case_match; simplify_eq; cbn; (split; [set_solver | done]).
Qed.

(** X3.  A group the database does not find is answered with 404 by every handler
    that takes an identifier, before anything else happens: no write is
    issued, and [update_policy] does not even look at the policy text. *)
Theorem missing_group_is_not_touched (identifier : Z) (s : S) :
  GroupsDb.fetch_one gdb identifier s = Return None ->
  let not_found := (Return (api_error "group does not exist" 404), s) in
  groups.fetch_one io schema gdb identifier s = not_found /\
  groups.delete_one io gdb identifier s = not_found /\
  (forall instructions, groups.change_assigned io gdb identifier instructions s = not_found) /\
  (forall assignment, groups.assign_package io gdb identifier assignment s = not_found) /\
  (forall policy_request,
     groups.update_policy io gdb policy_create identifier policy_request s = not_found).
Proof.
  intros Hnone. unfold_handlers. rewrite Hnone. repeat split.
Qed.

(** X4.  When the existence query itself raises an exception, each handler runs
    its [except] block: it answers 500 with its own message once the block
    has logged the exception, and in any case it issues no write. *)
Theorem failed_query_gives_500 (identifier : Z) (s : S) (e : exn) :
  GroupsDb.fetch_one gdb identifier s = Raise e ->
  isinstance_Exception e = true ->
  (logs io e ->
   groups.fetch_one io schema gdb identifier s =
     (Return (api_error "fetching failed" 500), s) /\
   groups.delete_one io gdb identifier s =
     (Return (api_error "deleting failed" 500), s) /\
   (forall instructions,
      groups.change_assigned io gdb identifier instructions s =
        (Return (api_error "group assignment modification failed" 500), s)) /\
   (forall assignment,
      groups.assign_package io gdb identifier assignment s =
        (Return (api_error "group package assignment failed" 500), s)) /\
   (forall policy_request,
      groups.update_policy io gdb policy_create identifier policy_request s =
        (Return (api_error "group policy assignment failed" 500), s))) /\
  (groups.fetch_one io schema gdb identifier s).2 = s /\
  (groups.delete_one io gdb identifier s).2 = s /\
  (forall instructions,
     (groups.change_assigned io gdb identifier instructions s).2 = s) /\
  (forall assignment,
     (groups.assign_package io gdb identifier assignment s).2 = s) /\
  (forall policy_request,
     (groups.update_policy io gdb policy_create identifier policy_request s).2 = s).
Proof.
  intros Hraise Hexc. split.
  - intros Hlogs. unfold_handlers. rewrite Hraise, Hexc.
    repeat split; intros; by apply report_logs.
  - unfold groups.fetch_one, groups.delete_one, groups.change_assigned,
      groups.assign_package, groups.update_policy.
    repeat split; intros; rewrite guard_store; unfold bind, query;
      by rewrite Hraise.
Qed.

(** X5.  For a group that was found, the three writing handlers report what the
    database answers: [change_assigned] and [assign_package] send the
    database's own complaint with 409 and the empty object with 200 when
    there is none, [delete_one] sends 200 or its fixed 409; the requested
    lists reach the database as they came, additions first. *)
Theorem write_answer_is_reported (identifier : Z) (s : S) (group : GroupModel) :
  GroupsDb.fetch_one gdb identifier s = Return (Some group) ->
  (forall instructions complaint s',
     GroupsDb.modify_assignment gdb identifier
       (add instructions) (remove instructions) s = (Return complaint, s') ->
     groups.change_assigned io gdb identifier instructions s =
       (Return (match complaint with
                | Some err => api_error err 409
                | None => (EmptyBody, 200)
                end), s')) /\
  (forall assignment complaint s',
     GroupsDb.modify_package gdb identifier (req_packages assignment) s =
       (Return complaint, s') ->
     groups.assign_package io gdb identifier assignment s =
       (Return (match complaint with
                | Some err => api_error err 409
                | None => (EmptyBody, 200)
                end), s')) /\
  (forall success s',
     GroupsDb.delete gdb identifier s = (Return success, s') ->
     groups.delete_one io gdb identifier s =
       (Return (if success then (EmptyBody, 200)
                else api_error "group is still assigned to some devices" 409), s')).
Proof.
  intros Hfound. unfold_handlers. rewrite Hfound.
  split; [|split].
  - intros instructions complaint s' ->. by destruct complaint.
  - intros assignment complaint s' ->. by destruct complaint.
  - intros success s' ->. by destruct success.
Qed.

(** X6.  A write that raises an exception sends the handler into its [except]
    block: the answer is 500 once the block has logged the exception, and in
    any case the handler leaves the store as the database left it: nothing is
    undone. *)
Theorem failed_write_gives_500 (identifier : Z) (s s' : S) (group : GroupModel) (e : exn) :
  GroupsDb.fetch_one gdb identifier s = Return (Some group) ->
  isinstance_Exception e = true ->
  (GroupsDb.delete gdb identifier s = (Raise e, s') ->
     (logs io e ->
      groups.delete_one io gdb identifier s =
        (Return (api_error "deleting failed" 500), s')) /\
     (groups.delete_one io gdb identifier s).2 = s') /\
  (forall instructions,
     GroupsDb.modify_assignment gdb identifier
       (add instructions) (remove instructions) s = (Raise e, s') ->
     (logs io e ->
      groups.change_assigned io gdb identifier instructions s =
        (Return (api_error "group assignment modification failed" 500), s')) /\
     (groups.change_assigned io gdb identifier instructions s).2 = s') /\
  (forall assignment,
     GroupsDb.modify_package gdb identifier (req_packages assignment) s = (Raise e, s') ->
     (logs io e ->
      groups.assign_package io gdb identifier assignment s =
        (Return (api_error "group package assignment failed" 500), s')) /\
     (groups.assign_package io gdb identifier assignment s).2 = s') /\
  (forall policy_request p,
     policy_create (req_policy policy_request) = Return p ->
     GroupsDb.update_policy gdb identifier (req_policy policy_request) s = (Raise e, s') ->
     (logs io e ->
      groups.update_policy io gdb policy_create identifier policy_request s =
        (Return (api_error "group policy assignment failed" 500), s')) /\
     (groups.update_policy io gdb policy_create identifier policy_request s).2 = s').
Proof.
  intros Hfound Hexc.
  split; [|split; [|split]].
  - intros Hw. split.
    + intros Hlogs. unfold_handlers. rewrite Hfound, Hw, Hexc. by apply report_logs.
    + unfold groups.delete_one. rewrite guard_store. unfold bind, query.
      by rewrite Hfound, Hw.
  - intros instructions Hw. split.
    + intros Hlogs. unfold_handlers. rewrite Hfound, Hw, Hexc. by apply report_logs.
    + unfold groups.change_assigned. rewrite guard_store. unfold bind, query.
      by rewrite Hfound, Hw.
  - intros assignment Hw. split.
    + intros Hlogs. unfold_handlers. rewrite Hfound, Hw, Hexc. by apply report_logs.
    + unfold groups.assign_package. rewrite guard_store. unfold bind, query.
      by rewrite Hfound, Hw.
  - intros policy_request p Hc Hw. split.
    + intros Hlogs. unfold_handlers. rewrite Hfound, Hc, Hw, Hexc. by apply report_logs.
    + unfold groups.update_policy. rewrite guard_store. unfold bind, query.
      by rewrite Hfound, Hc, Hw.
Qed.

(** X7.  A text the compiler does not return from never reaches the database:
    whatever the database finds and whatever the compiler raised,
    [update_policy] ends in the store it started from. *)
Theorem rejected_policy_is_never_written
    (identifier : Z) (policy_request : AssignPolicyRequest) (s : S) (e : exn) :
  policy_create (req_policy policy_request) = Raise e ->
  (groups.update_policy io gdb policy_create identifier policy_request s).2 = s.
Proof.
  intros Hraise. unfold groups.update_policy. rewrite guard_store.
  unfold bind, query, ret, raise. rewrite Hraise.
  repeat case_match; simplify_eq; done.
Qed.

End AnyDatabase.

(** X8.  [update_policy] uses the compiler as a gate only: two compilers that both
    accept the text lead to the same answer and the same store, whatever they
    compiled it to. *)
Theorem compiled_policy_is_discarded
    {S : Type} (io : Stdio.t) (gdb : GroupsDb.t S)
    (compiler1 compiler2 : string -> outcome Policy)
    (identifier : Z) (policy_request : AssignPolicyRequest) (s : S) (p1 p2 : Policy) :
  compiler1 (req_policy policy_request) = Return p1 ->
  compiler2 (req_policy policy_request) = Return p2 ->
  groups.update_policy io gdb compiler1 identifier policy_request s =
  groups.update_policy io gdb compiler2 identifier policy_request s.
Proof.
  intros H1 H2. unfold_handlers. by rewrite H1, H2.
Qed.

(** ** Representations over any database *)

Section AnyRepresentation.

Context {S : Type}.
Variable io : Stdio.t.
Variable schema : GroupSchema.t.
Variable gdb : GroupsDb.t S.

(** [model_to_schema] returns exactly when both lookups return, it returns
    the representation they determine, and it writes nothing. *)
Lemma model_to_schema_returns (group : GroupModel) (s s' : S) (g : Group) :
  groups.model_to_schema gdb group s = (Return g, s') <->
  s' = s /\ represents gdb s group g.
Proof.
  unfold represents. unfold_handlers.
  destruct (GroupsDb.fetch_assigned_packages gdb (gm_id group) s) as [pkgs|e].
  - destruct (GroupsDb.fetch_assigned gdb (gm_id group) s) as [assigned|e].
    + split.
      * intros [= <- <-]. cbn. eauto 10.
      * intros (-> & Hid & Hc & Hm & Hp & [= ->] & assigned' & [= <-] & Hd).
        destruct g; cbn in *; by subst.
    + split; [discriminate|].
      intros (_ & _ & _ & _ & _ & _ & assigned' & [=] & _).
  - split; [discriminate|].
    intros (_ & _ & _ & _ & _ & [=] & _).
Qed.

Lemma model_to_schema_keeps_store (group : GroupModel) (s : S) :
  (groups.model_to_schema gdb group s).2 = s.
Proof. unfold_handlers. by repeat case_match. Qed.

(** The list comprehension of [fetch_all]: it returns exactly when every
    group of the list has a representation, the representations come in the
    order of the groups, and nothing is written. *)
Lemma mapM_model_to_schema_returns (l : list GroupModel) (s s' : S) (gs : list Group) :
  mapM (groups.model_to_schema gdb) l s = (Return gs, s') <->
  s' = s /\ Forall2 (represents gdb s) l gs.
Proof.
  split.
  - revert s s' gs. induction l as [|group l IH]; intros s s' gs; cbn [mapM].
    + unfold ret. intros [= <- <-]. split; [done | constructor].
    + unfold bind at 1.
      destruct (groups.model_to_schema gdb group s) as [[g|e] s1] eqn:Hg;
        [|discriminate].
      apply model_to_schema_returns in Hg as [-> Hg].
      unfold bind at 1.
      destruct (mapM (groups.model_to_schema gdb) l s) as [[gs'|e] s2] eqn:Hl;
        [|discriminate].
      apply IH in Hl as [-> Hl]. unfold ret. intros [= <- <-].
      split; [done | by constructor].
  - intros [-> H]. induction H as [|group g l gs Hg _ IH]; [reflexivity|].
    cbn [mapM]. unfold bind at 1.
    assert (groups.model_to_schema gdb group s = (Return g, s)) as ->
      by (apply model_to_schema_returns; auto).
    unfold bind at 1. by rewrite IH.
Qed.

(** X9.  [fetch_all] answers 200 with a list exactly when the device and
    package lookups return for every group the database lists and the schema
    then writes the list out; what is written is one representation per
    group, in the database's order, each with the lists the database gives
    for that group at that moment.  One failing lookup, or a schema that
    raises, and there is no list at all. *)
Theorem fetch_all_lists_every_group (s : S) (listed : list GroupModel) :
  GroupsDb.fetch_all gdb s = Return listed ->
  forall dumped s',
    groups.fetch_all io schema gdb s = (Return (GroupListBody dumped, 200), s') <->
    s' = s /\
    exists gs, Forall2 (represents gdb s) listed gs /\
               GroupSchema.dump_many schema gs = Return dumped.
Proof.
  intros Hall dumped s'.
  unfold groups.fetch_all, try_except_Exception, bind, query, pure, ret. rewrite Hall.
  destruct (mapM (groups.model_to_schema gdb) listed s) as [[gs|e] s1] eqn:Hm.
  - apply mapM_model_to_schema_returns in Hm as [-> Hgs].
    destruct (GroupSchema.dump_many schema gs) as [j|e] eqn:Hd.
    + split.
      * intros [= <- <-]. eauto.
      * intros (-> & gs' & Hgs' & Hd').
        assert (mapM (groups.model_to_schema gdb) listed s = (Return gs, s)) as H1
          by (apply mapM_model_to_schema_returns; auto).
        assert (mapM (groups.model_to_schema gdb) listed s = (Return gs', s)) as H2
          by (apply mapM_model_to_schema_returns; auto).
        congruence.
    + split.
      * destruct (isinstance_Exception e); [|discriminate].
        intros Hrun. by apply report_returns in Hrun as [[=] _].
      * intros (-> & gs' & Hgs' & Hd').
        assert (mapM (groups.model_to_schema gdb) listed s = (Return gs, s)) as H1
          by (apply mapM_model_to_schema_returns; auto).
        assert (mapM (groups.model_to_schema gdb) listed s = (Return gs', s)) as H2
          by (apply mapM_model_to_schema_returns; auto).
        congruence.
  - split.
    + destruct (isinstance_Exception e); [|discriminate].
      intros Hrun. by apply report_returns in Hrun as [[=] _].
    + intros (-> & gs' & Hgs' & _).
      assert (mapM (groups.model_to_schema gdb) listed s = (Return gs', s)) as H2
        by (apply mapM_model_to_schema_returns; auto).
      congruence.
Qed.

(** The tail shared by [fetch_one] and [create]: a representation is built,
    written out and sent with 200. *)
Lemma represent_and_dump (label : string) (failure : response) (group : GroupModel)
    (s s' : S) (dumped : json) :
  is_error_body failure.1 ->
  try_except_Exception
    (schema_model <- groups.model_to_schema gdb group;;
     written <- pure (GroupSchema.dump schema schema_model);;
     ret (GroupBody written, 200))
    (report io label failure) s = (Return (GroupBody dumped, 200), s') <->
  s' = s /\
  exists g, represents gdb s group g /\ GroupSchema.dump schema g = Return dumped.
Proof.
  intros Hfail. unfold try_except_Exception, bind at 1.
  destruct (groups.model_to_schema gdb group s) as [[g|e] s1] eqn:Hm.
  - apply model_to_schema_returns in Hm as [-> Hg].
    unfold bind, pure, ret.
    destruct (GroupSchema.dump schema g) as [j|e] eqn:Hd.
    + split.
      * intros [= <- <-]. eauto.
      * intros (-> & g' & Hg' & Hd').
        assert (groups.model_to_schema gdb group s = (Return g, s)) as H1
          by (apply model_to_schema_returns; auto).
        assert (groups.model_to_schema gdb group s = (Return g', s)) as H2
          by (apply model_to_schema_returns; auto).
        congruence.
    + split.
      * destruct (isinstance_Exception e); [|discriminate].
        intros Hrun. apply report_returns in Hrun as [Hr _].
        rewrite <- Hr in Hfail. by destruct Hfail.
      * intros (-> & g' & Hg' & Hd').
        assert (groups.model_to_schema gdb group s = (Return g, s)) as H1
          by (apply model_to_schema_returns; auto).
        assert (groups.model_to_schema gdb group s = (Return g', s)) as H2
          by (apply model_to_schema_returns; auto).
        congruence.
  - split.
    + destruct (isinstance_Exception e); [|discriminate].
      intros Hrun. apply report_returns in Hrun as [Hr _].
      rewrite <- Hr in Hfail. by destruct Hfail.
    + intros (-> & g' & Hg' & _).
      assert (groups.model_to_schema gdb group s = (Return g', s)) as H2
        by (apply model_to_schema_returns; auto).
      congruence.
Qed.

(** X10.  [fetch_one] answers 200 exactly when both lookups return and the
    schema then writes the representation out; the representation copies the
    object the database found and takes the two lists under the identifier
    of that object. *)
Theorem fetch_one_represents_found (identifier : Z) (s : S) (group : GroupModel) :
  GroupsDb.fetch_one gdb identifier s = Return (Some group) ->
  forall dumped s',
    groups.fetch_one io schema gdb identifier s = (Return (GroupBody dumped, 200), s') <->
    s' = s /\
    exists g, represents gdb s group g /\ GroupSchema.dump schema g = Return dumped.
Proof.
  intros Hfound dumped s'.
  rewrite <- (represent_and_dump "Exception during group fetch:"
                (api_error "fetching failed" 500)) by done.
  unfold groups.fetch_one, try_except_Exception, bind at 1, query.
  rewrite Hfound. unfold bind at 2. reflexivity.
Qed.

(** X11.  [create] hands the database an object with the time of the call, the
    payload, the policy "no_update," and priority 25; once the insert has
    returned it answers 200 exactly when both lookups return and the schema
    then writes the representation out, and what it represents is the object
    the database gave back, with the lists looked up after the insert. *)
Theorem create_represents_inserted
    (utcnow : datetime) (metadata : json) (s s1 : S) (inserted : GroupModel) :
  GroupsDb.create gdb (new_group_object utcnow metadata) s = (Return inserted, s1) ->
  forall dumped s',
    groups.create io schema gdb utcnow metadata s = (Return (GroupBody dumped, 200), s') <->
    s' = s1 /\
    exists g, represents gdb s1 inserted g /\ GroupSchema.dump schema g = Return dumped.
Proof.
  intros Hcreate dumped s'.
  rewrite <- (represent_and_dump "Exception during group creation:"
                (api_error "group creation failed" 500)) by done.
  unfold groups.create, try_except_Exception, bind at 1.
  change (mkGroupModel 0 utcnow metadata "no_update," GROUP_DEFAULT_PRIORITY)
    with (new_group_object utcnow metadata).
  rewrite Hcreate. unfold bind at 2. reflexivity.
Qed.

(** X12.  When a lookup fails after the insert, [create] runs its [except]
    block with the inserted group in the store: the answer is 500 once the
    block has logged the exception, and in any case the insert stays. *)
Theorem create_failure_keeps_insert
    (utcnow : datetime) (metadata : json) (s s1 : S) (inserted : GroupModel) (e : exn) :
  GroupsDb.create gdb (new_group_object utcnow metadata) s = (Return inserted, s1) ->
  isinstance_Exception e = true ->
  GroupsDb.fetch_assigned_packages gdb (gm_id inserted) s1 = Raise e \/
  (exists packages,
     GroupsDb.fetch_assigned_packages gdb (gm_id inserted) s1 = Return packages /\
     GroupsDb.fetch_assigned gdb (gm_id inserted) s1 = Raise e) ->
  (logs io e ->
   groups.create io schema gdb utcnow metadata s =
     (Return (api_error "group creation failed" 500), s1)) /\
  (groups.create io schema gdb utcnow metadata s).2 = s1.
Proof.
  intros Hcreate Hexc Hfail. split.
  - intros Hlogs. unfold_handlers.
    change (mkGroupModel 0 utcnow metadata "no_update," GROUP_DEFAULT_PRIORITY)
      with (new_group_object utcnow metadata).
    rewrite Hcreate.
    destruct Hfail as [->|(packages & -> & ->)]; rewrite Hexc; by apply report_logs.
  - unfold groups.create. rewrite guard_store. unfold_handlers.
    change (mkGroupModel 0 utcnow metadata "no_update," GROUP_DEFAULT_PRIORITY)
      with (new_group_object utcnow metadata).
    rewrite Hcreate.
    by destruct Hfail as [->|(packages & -> & ->)].
Qed.

(** X13.  The same for a schema that raises after both lookups have returned:
    the answer is 500 once the block has logged the exception, and in any
    case the insert stays. *)
Theorem create_dump_failure_keeps_insert
    (utcnow : datetime) (metadata : json) (s s1 : S) (inserted : GroupModel)
    (g : Group) (e : exn) :
  GroupsDb.create gdb (new_group_object utcnow metadata) s = (Return inserted, s1) ->
  represents gdb s1 inserted g ->
  GroupSchema.dump schema g = Raise e ->
  isinstance_Exception e = true ->
  (logs io e ->
   groups.create io schema gdb utcnow metadata s =
     (Return (api_error "group creation failed" 500), s1)) /\
  (groups.create io schema gdb utcnow metadata s).2 = s1.
Proof.
  intros Hcreate Hg Hd Hexc.
  assert (groups.model_to_schema gdb inserted s1 = (Return g, s1)) as Hm
    by (apply model_to_schema_returns; auto).
  split.
  - intros Hlogs. unfold groups.create, try_except_Exception, bind at 1.
    change (mkGroupModel 0 utcnow metadata "no_update," GROUP_DEFAULT_PRIORITY)
      with (new_group_object utcnow metadata).
    rewrite Hcreate. unfold bind at 1. rewrite Hm.
    unfold bind, pure, ret. rewrite Hd, Hexc. by apply report_logs.
  - unfold groups.create. rewrite guard_store. unfold bind at 1.
    change (mkGroupModel 0 utcnow metadata "no_update," GROUP_DEFAULT_PRIORITY)
      with (new_group_object utcnow metadata).
    rewrite Hcreate. unfold bind at 1. rewrite Hm.
    unfold bind, pure, ret. by rewrite Hd.
Qed.

End AnyRepresentation.

(** ** The failure paths, run *)

Lemma exceptions_leave_through_logging_only_witness :
  isinstance_Exception closed_file = false \/
  exists e, isinstance_Exception e = true /\
            raised_while_logging closed_console e closed_file.
Proof.
  apply (exceptions_leave_through_logging_only closed_console schema_v1.schema
           (unreachable_db operational_error) policy.create (DeleteGroup 1) tt tt
           closed_file).
  reflexivity.
Defined.

Lemma answers_fit_route_witness :
  400 ∈ [200; 400; 404; 500] /\
  is_error_body (ErrorBody "invalid policy: unknown policy kind: bogus").
Proof.
  apply (answers_fit_route console schema_v1.schema db policy.create
           (PostPolicy 1 (mkAssignPolicyRequest "bogus")) one_group one_group
           (api_error "invalid policy: unknown policy kind: bogus" 400)).
  vm_compute. reflexivity.
Defined.

Lemma missing_group_is_not_touched_witness :
  groups.update_policy console db policy.create 4 (mkAssignPolicyRequest "bogus") one_group =
    (Return (api_error "group does not exist" 404), one_group).
Proof.
  apply (missing_group_is_not_touched console schema_v1.schema db policy.create 4 one_group).
  vm_compute. reflexivity.
Defined.

Lemma failed_query_gives_500_witness :
  groups.delete_one console (unreachable_db operational_error) 1 tt =
    (Return (api_error "deleting failed" 500), tt).
Proof.
  apply (proj1 (failed_query_gives_500 console schema_v1.schema
                  (unreachable_db operational_error) policy.create
                  1 tt operational_error eq_refl eq_refl)).
  apply console_logs.
Defined.

Lemma write_answer_is_reported_witness :
  groups.change_assigned console db 1 (mkAssignDeviceRequest [5] []) one_member =
    (Return (api_error "device already assigned to a group" 409), one_member).
Proof.
  apply (proj1 (write_answer_is_reported console db 1 one_member
                  (to_model 1 (to_row (new_group_object 7 description)))
                  ltac:(vm_compute; reflexivity))
           (mkAssignDeviceRequest [5] [])
           (Some "device already assigned to a group") one_member).
  vm_compute. reflexivity.
Defined.

Lemma failed_write_gives_500_witness :
  groups.delete_one console (write_failing_db operational_error) 1 one_group =
    (Return (api_error "deleting failed" 500), one_group).
Proof.
  apply (proj1 (failed_write_gives_500 console (write_failing_db operational_error)
                  policy.create 1 one_group one_group
                  (to_model 1 (to_row (new_group_object 7 description)))
                  operational_error eq_refl eq_refl)).
  - reflexivity.
  - apply console_logs.
Defined.

Lemma rejected_policy_is_never_written_witness :
  (groups.update_policy console db policy.create 1
     (mkAssignPolicyRequest "exact_match") one_member).2 = one_member.
Proof.
  apply (rejected_policy_is_never_written console db policy.create 1
           (mkAssignPolicyRequest "exact_match") one_member
           (policy.parse_error "exact_match takes one version")).
  reflexivity.
Defined.

Lemma compiled_policy_is_discarded_witness :
  groups.update_policy console db policy.create 1
    (mkAssignPolicyRequest "exact_match,v1") one_group =
  groups.update_policy console db (fun text => Return (mkPolicy text []))
    1 (mkAssignPolicyRequest "exact_match,v1") one_group.
Proof.
  apply (compiled_policy_is_discarded console db policy.create
           (fun text => Return (mkPolicy text []))
           1 (mkAssignPolicyRequest "exact_match,v1") one_group
           (mkPolicy "exact_match" ["v1"]) (mkPolicy "exact_match,v1" []));
    reflexivity.
Defined.

Lemma fetch_all_lists_every_group_witness :
  one_member = one_member /\
  exists gs,
    Forall2 (represents db one_member)
      [to_model 1 (to_row (new_group_object 7 description))] gs /\
    schema_v1.dump_many gs =
      Return (JArr [schema_v1.render (mkGroup 1 7 [] [5] description "no_update,")]).
Proof.
  apply (fetch_all_lists_every_group console schema_v1.schema db one_member
           [to_model 1 (to_row (new_group_object 7 description))]).
  - vm_compute. reflexivity.
  - vm_compute. reflexivity.
Defined.

Lemma fetch_one_represents_found_witness :
  one_member = one_member /\
  exists g,
    represents db one_member (to_model 1 (to_row (new_group_object 7 description))) g /\
    schema_v1.dump g =
      Return (schema_v1.render (mkGroup 1 7 [] [5] description "no_update,")).
Proof.
  apply (fetch_one_represents_found console schema_v1.schema db 1 one_member
           (to_model 1 (to_row (new_group_object 7 description)))).
  - vm_compute. reflexivity.
  - vm_compute. reflexivity.
Defined.

Lemma create_represents_inserted_witness :
  one_group = one_group /\
  exists g,
    represents db one_group (to_model 1 (to_row (new_group_object 7 description))) g /\
    schema_v1.dump g =
      Return (schema_v1.render (mkGroup 1 7 [] [] description "no_update,")).
Proof.
  apply (create_represents_inserted console schema_v1.schema db 7 description
           fleet one_group
           (to_model 1 (to_row (new_group_object 7 description)))).
  - vm_compute. reflexivity.
  - vm_compute. reflexivity.
Defined.

Lemma create_failure_keeps_insert_witness :
  groups.create console schema_v1.schema (lookup_failing_db operational_error)
    7 description fleet =
    (Return (api_error "group creation failed" 500), one_group).
Proof.
  apply (proj1 (create_failure_keeps_insert console schema_v1.schema
                  (lookup_failing_db operational_error)
                  7 description fleet one_group
                  (to_model 1 (to_row (new_group_object 7 description)))
                  operational_error
                  ltac:(vm_compute; reflexivity) eq_refl
                  ltac:(right; exists []; split; vm_compute; reflexivity))).
  apply console_logs.
Defined.

Lemma create_dump_failure_keeps_insert_witness :
  (groups.create console schema_v1.schema db 7 (JStr "plain") fleet).2 =
    (SpecStore.create (new_group_object 7 (JStr "plain")) fleet).2.
Proof.
  apply (proj2 (create_dump_failure_keeps_insert console schema_v1.schema db
                  7 (JStr "plain") fleet
                  (SpecStore.create (new_group_object 7 (JStr "plain")) fleet).2
                  (to_model 1 (to_row (new_group_object 7 (JStr "plain"))))
                  (mkGroup 1 7 [] [] (JStr "plain") "no_update,")
                  schema_v1.not_a_mapping
                  ltac:(vm_compute; reflexivity)
                  ltac:(repeat split; try reflexivity;
                        eexists; split; vm_compute; reflexivity)
                  eq_refl eq_refl)).
Defined.
